(** * reddit_scanner.py: a shallow embedding and its checked properties

    The script has four operations (scan, reply, warmup, status) sharing one
    credential loader, and a small command dispatcher.  Each operation is a
    sequence of calls into the PRAW client, wrapped in [try]/[except].

    The embedding keeps that shape:
    - Python values that end up in the JSON output are terms of [pyval]
      (dictionaries keep their insertion order, as Python's do); a Python
      [str] is a Rocq string holding its UTF-8 bytes, and slices count code
      points;
    - the PRAW client is an interface [Service] over an arbitrary remote
      state; the constructor and every request may return or raise;
    - the operations are written in a monad [M] with state (remote state,
      log of client calls, the mutable [results] list) and exceptions, where
      the state written before a [raise] survives it, as in Python. *)

From Stdlib Require Import String Ascii List ZArith Lia Bool Permutation Sorted.
Import ListNotations.
Set Warnings "-register-all".
Local Open Scope string_scope.
Local Open Scope Z_scope.

(** ** Python values and the string operations the script uses *)

Module Py.

(** The values the operations return: exactly what [json.dumps] writes
    without help.  Numbers are integers: karma, scores and counts are Python
    ints; [created_utc] is a float holding whole epoch seconds. *)
Inductive pyval : Type :=
| VNone
| VBool (b : bool)
| VInt (n : Z)
| VStr (s : string)
| VList (l : list pyval)
| VDict (d : list (string * pyval)).

(** [d.get(k)] on a dictionary literal: the first binding of [k]. *)
Fixpoint assoc (k : string) (d : list (string * pyval)) : option pyval :=
  match d with
  | [] => None
  | (k', v) :: d' => if String.eqb k k' then Some v else assoc k d'
  end.

(** [x.get(k)], [None] also when [x] is no dictionary. *)
Definition get (k : string) (x : pyval) : option pyval :=
  match x with
  | VDict d => assoc k d
  | _ => None
  end.

(** [k in x] for a dictionary [x]. *)
Definition has_key (k : string) (x : pyval) : bool :=
  match get k x with Some _ => true | None => false end.

(** [needle in hay] on strings: [needle] occurs as a contiguous substring. *)
Fixpoint contains (needle hay : string) : bool :=
  String.prefix needle hay ||
  match hay with
  | EmptyString => false
  | String _ hay' => contains needle hay'
  end.

(** A Python [str] is held here in UTF-8: one Rocq character is one byte,
    and a byte 10xxxxxx continues the code point begun before it. *)
Definition is_continuation (c : ascii) : bool :=
  (Nat.leb 128 (nat_of_ascii c) && Nat.ltb (nat_of_ascii c) 192)%bool.

(** [len(s)]: the number of code points, one per byte that begins one. *)
Fixpoint len (s : string) : nat :=
  match s with
  | EmptyString => O
  | String c s' => if is_continuation c then len s' else S (len s')
  end.

(** [s[:n]] for a non-negative [n]: the first [n] code points, each with
    all its bytes. *)
Fixpoint take (n : nat) (s : string) : string :=
  match s with
  | EmptyString => EmptyString
  | String c s' =>
      if is_continuation c then String c (take n s')
      else match n with
           | O => EmptyString
           | S n' => String c (take n' s')
           end
  end.

(** [s.startswith(p)]. *)
Definition startswith (p s : string) : bool := String.prefix p s.

(** [s.split(sep)] for a one-character separator: never empty. *)
Fixpoint split (sep : ascii) (s : string) : list string :=
  match s with
  | EmptyString => [EmptyString]
  | String c s' =>
      if Ascii.eqb c sep then EmptyString :: split sep s'
      else match split sep s' with
           | [] => [String c EmptyString]
           | w :: ws => String c w :: ws
           end
  end.

(** [s.split(sep, 1)[1]] when [sep] occurs in [s]: what follows the first
    separator. *)
Fixpoint after_first (sep : ascii) (s : string) : option string :=
  match s with
  | EmptyString => None
  | String c s' => if Ascii.eqb c sep then Some s' else after_first sep s'
  end.

(** [x in l] on a list of strings. *)
Definition mem (x : string) (l : list string) : bool :=
  existsb (String.eqb x) l.

(** [str.lower] on ASCII text: A-Z go to a-z, every other character stays. *)
Definition lower_char (c : ascii) : ascii :=
  let n := nat_of_ascii c in
  if (Nat.leb 65 n && Nat.leb n 90)%bool then ascii_of_nat (n + 32) else c.

Fixpoint lower_ascii (s : string) : string :=
  match s with
  | EmptyString => EmptyString
  | String c s' => String (lower_char c) (lower_ascii s')
  end.

End Py.
Import Py.

(** ** Config *)

Definition DEFAULT_SUBS : list string :=
  [ "SideProject"; "SaaS"; "entrepreneur"; "Automate";
    "smallbusiness"; "startups"; "webdev"; "dataisbeautiful" ].

Definition PAIN_KEYWORDS : list string :=
  [ "is there a tool"; "i need"; "looking for"; "anyone know";
    "does anyone"; "how do i"; "recommend"; "alternative to";
    "automation"; "ai tool"; "workflow"; "scraping"; "monitoring";
    "competitor analysis"; "market research"; "price tracking";
    "data collection"; "web scraping"; "browser automation" ].

(** ** What the PRAW client hands back *)

(** A comment forest as the first fetch loads it: comments with their
    replies, and [MoreComments] placeholders standing for the comments the
    service has not sent yet ([hidden] is what expanding one would load). *)
Inductive CommentNode : Type :=
| Comment (author : option string) (replies : list CommentNode)
| MoreComments (hidden : list CommentNode).

(** A submission, as a listing or a fetch by id delivers it.  [selftext] may
    be [None]; the script guards it with [or ""]. *)
Record Submission : Type := {
  sub_id : string;
  sub_title : string;
  sub_selftext : option string;
  sub_permalink : string;
  sub_subreddit : string;
  sub_score : Z;
  sub_num_comments : Z;
  sub_created_utc : Z;
  sub_comments : list CommentNode
}.

(** The authenticated account, as [reddit.user.me()] returns it. *)
Record Redditor : Type := {
  me_name : string;
  me_link_karma : Z;
  me_comment_karma : Z;
  me_created_utc : Z;
  me_has_verified_email : bool
}.

(** The comment [submission.reply] returns. *)
Record NewComment : Type := {
  com_id : string;
  com_permalink : string
}.

Module Forest.

Definition replies_of (c : CommentNode) : list CommentNode :=
  match c with
  | Comment _ rs => rs
  | MoreComments _ => []
  end.

(** [comments.replace_more(limit=0)]: PRAW replaces at most [limit]
    placeholders and removes the others from the forest; with [limit=0] it
    replaces none, removes all of them and sends no request. *)
Fixpoint strip (c : CommentNode) : list CommentNode :=
  match c with
  | Comment a rs => [Comment a (flat_map strip rs)]
  | MoreComments _ => []
  end.

Definition replace_more_0 (f : list CommentNode) : list CommentNode :=
  flat_map strip f.

(** Number of nodes [comments.list()] visits. *)
Fixpoint size (c : CommentNode) : nat :=
  match c with
  | Comment _ rs => S (list_sum (map size rs))
  | MoreComments _ => 1%nat
  end.

Definition forest_size (f : list CommentNode) : nat := list_sum (map size f).

(** [comments.list()]: PRAW flattens the forest breadth first with a queue,
    appending the replies of every comment it pops. *)
Fixpoint bfs (fuel : nat) (queue : list CommentNode) : list CommentNode :=
  match fuel, queue with
  | S fuel', c :: q => c :: bfs fuel' (q ++ replies_of c)
  | _, _ => []
  end.

Definition comments_list (f : list CommentNode) : list CommentNode :=
  bfs (forest_size f) f.

(** Every node of a forest, depth first: the reference [bfs] is compared
    with. *)
Fixpoint nodes (c : CommentNode) : list CommentNode :=
  match c with
  | Comment _ rs => c :: flat_map nodes rs
  | MoreComments _ => [c]
  end.

Definition forest_nodes (f : list CommentNode) : list CommentNode :=
  flat_map nodes f.

(** Follows the spec's words, not the code: the forest "after fully
    expanding any load-more placeholders", every placeholder replaced by
    the comments it hides, recursively. *)
Fixpoint expand (c : CommentNode) : list CommentNode :=
  match c with
  | Comment a rs => [Comment a (flat_map expand rs)]
  | MoreComments hidden => flat_map expand hidden
  end.

Definition expand_all (f : list CommentNode) : list CommentNode :=
  flat_map expand f.

(** [c] is a comment written by [name]. *)
Definition written_by (name : string) (c : CommentNode) : bool :=
  match c with
  | Comment (Some a) _ => String.eqb a name
  | _ => false
  end.

(** Some comment of the forest is written by [name]. *)
Definition has_comment_by (name : string) (f : list CommentNode) : bool :=
  existsb (written_by name) (forest_nodes f).

End Forest.

(** ** The client interface, the call log and the effect monad *)

(** Outcome of a call or of a block: a value, or a raised exception,
    carried as its [str(e)]. *)
Inductive res (A : Type) : Type :=
| Ok (a : A)
| Exn (msg : string).
Arguments Ok {A} a.
Arguments Exn {A} msg.

(** A listing generator run to its end: the submissions it yields, then
    [Some e] when it raises [e] instead of stopping. *)
Definition listing : Type := (list Submission * option string)%type.

(** The PRAW client handle: the keyword arguments [get_reddit] passes to
    [praw.Reddit].  [kw_login] is present when username and password both
    are. *)
Record Reddit : Type := {
  kw_client_id : string;
  kw_client_secret : string;
  kw_user_agent : string;
  kw_login : option (string * string)
}.

(** The PRAW client: the constructor of the handle, and the five requests
    the script makes, over a remote state [W].  The answers are arbitrary:
    any call may raise, and any request may change the remote state. *)
Record Service (W : Type) : Type := {
  (* praw.Reddit called on the keyword arguments: reads the local PRAW
     configuration and sends no request; [Some e] when it raises [e] *)
  reddit_init : Reddit -> option string;
  (* for post in reddit.subreddit(name).new(limit=limit) *)
  subreddit_new : Reddit -> string -> Z -> W -> listing * W;
  (* for post in reddit.subreddit(name).hot(limit=limit) *)
  subreddit_hot : Reddit -> string -> Z -> W -> listing * W;
  (* reddit.submission(id=post_id), loaded on its first attribute access *)
  submission_fetch : Reddit -> string -> W -> res Submission * W;
  (* reddit.user.me(); None for a read-only handle *)
  user_me : Reddit -> W -> res (option Redditor) * W;
  (* submission.reply(text) on the submission with that id *)
  submission_reply : Reddit -> string -> string -> W -> res NewComment * W
}.
Arguments reddit_init {W}.
Arguments subreddit_new {W}.
Arguments subreddit_hot {W}.
Arguments submission_fetch {W}.
Arguments user_me {W}.
Arguments submission_reply {W}.

(** One entry of the call log per request, with its answer. *)
Inductive event : Type :=
| ENew (name : string) (limit : Z) (got : listing)
| EHot (name : string) (limit : Z) (got : listing)
| EFetch (post_id : string) (got : res Submission)
| EMe (got : res (option Redditor))
| EReply (post_id text : string) (got : res NewComment).

(** The request is the comment submission, the only one that writes. *)
Definition is_reply (ev : event) : bool :=
  match ev with EReply _ _ _ => true | _ => false end.

(** The exception a logged request ended with, if it did. *)
Definition failure_of (ev : event) : option string :=
  match ev with
  | ENew _ _ (_, e) | EHot _ _ (_, e) => e
  | EFetch _ (Exn e) | EMe (Exn e) | EReply _ _ (Exn e) => Some e
  | _ => None
  end.

(** What a run threads: the remote state, the requests made so far (oldest
    first) and the running function's one mutable local list ([results] in
    the scanner, [hot_posts] in the warmup). *)
Record state (W : Type) : Type := mkState {
  remote : W;
  log : list event;
  local_list : list pyval
}.
Arguments mkState {W}.
Arguments remote {W}.
Arguments log {W}.
Arguments local_list {W}.

Module Eff.
Section Monad.
Context {W : Type}.

(** A block of Python: from a state to an outcome and a state.  The state
    is returned on both outcomes: what was appended before a [raise] stays. *)
Definition M (A : Type) : Type := state W -> res A * state W.

Definition ret {A} (a : A) : M A := fun s => (Ok a, s).

Definition bind {A B} (c : M A) (k : A -> M B) : M B :=
  fun s => match c s with
           | (Ok a, s') => k a s'
           | (Exn e, s') => (Exn e, s')
           end.

Definition raise {A} (e : string) : M A := fun s => (Exn e, s).

(** A computation that touches no state: its value, or its exception. *)
Definition lift {A} (r : res A) : M A := fun s => (r, s).

(** [try: body / except Exception as e: handler(str(e))]. *)
Definition try_except {A} (body : M A) (handler : string -> M A) : M A :=
  fun s => match body s with
           | (Ok a, s') => (Ok a, s')
           | (Exn e, s') => handler e s'
           end.

(** [for x in l: body(x)]. *)
Fixpoint for_each {A} (l : list A) (body : A -> M unit) : M unit :=
  match l with
  | [] => ret tt
  | x :: l' => bind (body x) (fun _ => for_each l' body)
  end.

(** [for x in g: body(x)] over a listing generator: the body runs on what
    [g] yields, then the generator's own exception, if any, is raised. *)
Definition for_listing (g : listing) (body : Submission -> M unit) : M unit :=
  bind (for_each (fst g) body)
       (fun _ => match snd g with
                 | Some e => raise e
                 | None => ret tt
                 end).

(** A request: the service answers, the remote state moves, the log grows. *)
Definition request {A} (call : W -> A * W) (entry : A -> event) : M A :=
  fun s => let (a, w') := call (remote s) in
           (Ok a, mkState w' (log s ++ [entry a]) (local_list s)).

(** A request whose answer may be an exception. *)
Definition request_res {A} (call : W -> res A * W) (entry : res A -> event)
  : M A :=
  fun s => let (a, w') := call (remote s) in
           (a, mkState w' (log s ++ [entry a]) (local_list s)).

(** [l = []], [l.append(x)] and reading [l], for the local list. *)
Definition list_reset : M unit :=
  fun s => (Ok tt, mkState (remote s) (log s) []).

Definition list_append (x : pyval) : M unit :=
  fun s => (Ok tt, mkState (remote s) (log s) (local_list s ++ [x])).

Definition list_read : M (list pyval) := fun s => (Ok (local_list s), s).

End Monad.
Arguments M W A : clear implicits.
End Eff.
Import Eff.

Declare Scope eff_scope.
Delimit Scope eff_scope with eff.
Notation "x <- c ;; k" := (bind c (fun x => k))
  (at level 61, c at next level, right associativity) : eff_scope.
Notation "c ;; k" := (bind c (fun _ => k))
  (at level 61, right associativity) : eff_scope.
Local Open Scope eff_scope.

(** ** PRAW init *)

(** [os.environ]. *)
Definition Env : Type := string -> option string.

(** Python truth of [os.environ.get(..)]: set and not empty. *)
Definition truthy (v : option string) : bool :=
  match v with
  | Some EmptyString | None => false
  | Some _ => true
  end.

(** [v or d]. *)
Definition str_or (v : option string) (d : string) : string :=
  match v with
  | Some EmptyString | None => d
  | Some s => s
  end.

(** [l or d] for an optional list argument: [None] and [[]] give [d]. *)
Definition list_or (l : option (list string)) (d : list string) : list string :=
  match l with
  | Some [] | None => d
  | Some l' => l'
  end.

(** [get_reddit()]: no handle when a credential is missing; otherwise the
    keyword arguments go to the [praw.Reddit] constructor, whose exception,
    if it raises one, is the exception of [get_reddit].  A handle that was
    built is identified with its keyword arguments. *)
Definition get_reddit {W} (svc : Service W) (environ : Env)
  : res (option Reddit) :=
  let client_id := environ "REDDIT_CLIENT_ID" in
  let client_secret := environ "REDDIT_CLIENT_SECRET" in
  let username := environ "REDDIT_USERNAME" in
  let password := environ "REDDIT_PASSWORD" in
  if negb (truthy client_id) || negb (truthy client_secret) then Ok None
  else
    let kwargs := {|
      kw_client_id := str_or client_id "";
      kw_client_secret := str_or client_secret "";
      kw_user_agent :=
        ("market_research_assistant:v1.0 (by /u/"
           ++ str_or username "fishbig" ++ ")")%string;
      kw_login :=
        if truthy username && truthy password
        then Some (str_or username "", str_or password "")
        else None
    |} in
    match reddit_init svc kwargs with
    | Some e => Exn e
    | None => Ok (Some kwargs)
    end.

(** ** Sort by recency *)

(** [lambda x: x.get("created_utc", 0)]. *)
Definition sort_key (x : pyval) : Z :=
  match get "created_utc" x with
  | Some (VInt n) => n
  | _ => 0
  end.

(** [list.sort(key=.., reverse=True)] is stable: among equal keys the
    earlier element stays first.  Insertion from the right does the same. *)
Fixpoint insert_desc (x : pyval) (l : list pyval) : list pyval :=
  match l with
  | [] => [x]
  | y :: l' =>
      if sort_key y <=? sort_key x then x :: y :: l'
      else y :: insert_desc x l'
  end.

Fixpoint sort_desc (l : list pyval) : list pyval :=
  match l with
  | [] => []
  | x :: l' => insert_desc x (sort_desc l')
  end.

(** ** The four operations and the command dispatcher *)

Section Scanner.

Context {W : Type}.
(** The wrapped client. *)
Variable svc : Service W.
(** [str.lower]. *)
Variable lower : string -> string.
(** [rounded_age d t] is [round((time.time() - t) / d, 1)]: the clock and
    the float arithmetic stay abstract. *)
Variable rounded_age : Z -> Z -> pyval.

Local Abbreviation M := (Eff.M W).

Definition call_new (reddit : Reddit) (name : string) (limit : Z) : M listing :=
  request (subreddit_new svc reddit name limit) (ENew name limit).

Definition call_hot (reddit : Reddit) (name : string) (limit : Z) : M listing :=
  request (subreddit_hot svc reddit name limit) (EHot name limit).

Definition call_fetch (reddit : Reddit) (post_id : string) : M Submission :=
  request_res (submission_fetch svc reddit post_id) (EFetch post_id).

Definition call_me (reddit : Reddit) : M (option Redditor) :=
  request_res (user_me svc reddit) EMe.

Definition call_reply (reddit : Reddit) (post_id text : string) : M NewComment :=
  request_res (submission_reply svc reddit post_id text) (EReply post_id text).

(** *** Scan *)

(** [(post.title + " " + (post.selftext or "")).lower()]. *)
Definition post_text (post : Submission) : string :=
  lower (sub_title post ++ " " ++ str_or (sub_selftext post) "")%string.

(** [[kw for kw in kws if kw in text]]. *)
Definition matched_keywords (kws : list string) (post : Submission)
  : list string :=
  filter (fun kw => contains kw (post_text post)) kws.

Definition post_record (sub_name : string) (post : Submission)
  (matched : list string) : pyval :=
  VDict
    [ ("id", VStr (sub_id post));
      ("title", VStr (sub_title post));
      ("body", VStr (take 800 (str_or (sub_selftext post) "")));
      ("url", VStr ("https://reddit.com" ++ sub_permalink post));
      ("subreddit", VStr sub_name);
      ("score", VInt (sub_score post));
      ("num_comments", VInt (sub_num_comments post));
      ("created_utc", VInt (sub_created_utc post));
      ("age_hours", rounded_age 3600 (sub_created_utc post));
      ("keywords_matched", VList (map VStr matched)) ].

Definition scan_error_record (sub_name e : string) : pyval :=
  VDict [ ("error", VStr ("Failed to scan r/" ++ sub_name ++ ": " ++ e)) ].

(** The body of the inner loop. *)
Definition scan_post (kws : list string) (sub_name : string)
  (post : Submission) : M unit :=
  match matched_keywords kws post with
  | [] => ret tt
  | matched => list_append (post_record sub_name post matched)
  end.

(** The body of the outer loop: one subreddit inside its [try]. *)
Definition scan_sub (reddit : Reddit) (kws : list string) (limit : Z)
  (sub_name : string) : M unit :=
  try_except
    (g <- call_new reddit sub_name limit ;;
     for_listing g (scan_post kws sub_name))
    (fun e => list_append (scan_error_record sub_name e)).

Definition not_configured_scan : pyval :=
  VDict [ ("error",
           VStr "Reddit credentials not configured. Set REDDIT_CLIENT_ID and REDDIT_CLIENT_SECRET.") ].

Definition not_configured : pyval :=
  VDict [ ("error", VStr "Reddit credentials not configured.") ].

Definition scan_opportunities (environ : Env)
  (subreddits keywords : option (list string)) (limit : Z) : M pyval :=
  reddit <- lift (get_reddit svc environ) ;;
  match reddit with
  | None => ret not_configured_scan
  | Some reddit =>
      let subs := list_or subreddits DEFAULT_SUBS in
      let kws := list_or keywords PAIN_KEYWORDS in
      list_reset ;;
      for_each subs (scan_sub reddit kws limit) ;;
      results <- list_read ;;
      ret (VList (sort_desc results))
  end.

(** *** Reply *)

(** [c.author and c.author.name == me.name]; a placeholder has no
    [author] attribute. *)
Definition author_is (name : string) (c : CommentNode) : res bool :=
  match c with
  | Comment (Some a) _ => Ok (String.eqb a name)
  | Comment None _ => Ok false
  | MoreComments _ => Exn "'MoreComments' object has no attribute 'author'"
  end.

(** [any(.. for c in l)], left to right, stopping at the first true. *)
Fixpoint any_author (name : string) (l : list CommentNode) : res bool :=
  match l with
  | [] => Ok false
  | c :: l' =>
      match author_is name c with
      | Ok true => Ok true
      | Ok false => any_author name l'
      | Exn e => Exn e
      end
  end.

Definition skipped : pyval :=
  VDict [ ("status", VStr "skipped"); ("reason", VStr "already_replied") ].

Definition reply_to_post (environ : Env) (post_id reply_text : string)
  (dry_run : bool) : M pyval :=
  reddit <- lift (get_reddit svc environ) ;;
  match reddit with
  | None => ret not_configured
  | Some reddit =>
      try_except
        (submission <- call_fetch reddit post_id ;;
         let comments := Forest.replace_more_0 (sub_comments submission) in
         me <- call_me reddit ;;
         already_replied <-
           match me with
           | Some m =>
               lift (any_author (me_name m) (Forest.comments_list comments))
           | None => ret false
           end ;;
         if (already_replied : bool) then ret skipped
         else if dry_run then
           ret (VDict
                  [ ("status", VStr "dry_run");
                    ("post_title", VStr (sub_title submission));
                    ("post_url",
                     VStr ("https://reddit.com" ++ sub_permalink submission));
                    ("would_reply", VStr (take 300 reply_text)) ])
         else
           (comment <- call_reply reddit post_id reply_text ;;
            ret (VDict
                   [ ("status", VStr "replied");
                     ("post_id", VStr post_id);
                     ("comment_id", VStr (com_id comment));
                     ("comment_url",
                      VStr ("https://reddit.com" ++ com_permalink comment)) ])))
        (fun e => ret (VDict [ ("error", VStr e) ]))
  end.

(** *** Warmup *)

Definition hot_record (post : Submission) : pyval :=
  VDict [ ("title", VStr (take 100 (sub_title post)));
          ("subreddit", VStr (sub_subreddit post));
          ("score", VInt (sub_score post)) ].

Definition warmup_actions (environ : Env) : M pyval :=
  reddit <- lift (get_reddit svc environ) ;;
  match reddit with
  | None => ret not_configured
  | Some reddit =>
      try_except
        (me <- call_me reddit ;;
         let karma :=
           match me with
           | Some m => me_link_karma m + me_comment_karma m
           | None => 0
           end in
         list_reset ;;
         g <- call_hot reddit "all" 5 ;;
         for_listing g (fun post => list_append (hot_record post)) ;;
         hot_posts <- list_read ;;
         ret (VDict
                [ ("status", VStr "ok");
                  ("username",
                   VStr (match me with
                         | Some m => me_name m
                         | None => "unknown"
                         end));
                  ("karma", VInt karma);
                  ("account_age_days",
                   match me with
                   | Some m => rounded_age 86400 (me_created_utc m)
                   | None => VInt 0
                   end);
                  ("hot_posts_browsed", VInt (Z.of_nat (length hot_posts)));
                  ("suggestion",
                   VStr (if karma <? 100
                         then "Comment on these posts with genuine value to build karma"
                         else "Ready for targeted replies")) ]))
        (fun e => ret (VDict [ ("error", VStr e) ]))
  end.

(** *** Account status *)

Definition check_status (environ : Env) : M pyval :=
  reddit <- lift (get_reddit svc environ) ;;
  match reddit with
  | None => ret not_configured
  | Some reddit =>
      try_except
        (me <- call_me reddit ;;
         match me with
         | None => raise "'NoneType' object has no attribute 'name'"
         | Some m =>
             ret (VDict
                    [ ("username", VStr (me_name m));
                      ("link_karma", VInt (me_link_karma m));
                      ("comment_karma", VInt (me_comment_karma m));
                      ("total_karma",
                       VInt (me_link_karma m + me_comment_karma m));
                      ("account_age_days",
                       rounded_age 86400 (me_created_utc m));
                      ("is_verified", VBool (me_has_verified_email m));
                      ("ready_for_action",
                       VBool (50 <=? me_comment_karma m)) ])
         end)
        (fun e => ret (VDict [ ("error", VStr e) ]))
  end.

(** *** CLI *)

(** The loop over [sys.argv[2:]]: the last [--subs=] argument wins. *)
Definition parse_subs (args : list string) : option (list string) :=
  fold_left
    (fun subs arg =>
       if startswith "--subs=" arg
       then match after_first "=" arg with
            | Some v => Some (split "," v)
            | None => subs
            end
       else subs)
    args None.

(** The dispatcher: the document printed and the exit status. *)
Definition main (environ : Env) (argv : list string) : M (pyval * Z) :=
  match argv with
  | [] | [_] =>
      ret (VDict [ ("error",
                    VStr "Usage: reddit_scanner.py <scan|reply|warmup|status>") ],
           1)
  | _ :: cmd :: rest =>
      if String.eqb cmd "scan" then
        result <- scan_opportunities environ (parse_subs rest) None 25 ;;
        ret (result, 0)
      else if String.eqb cmd "reply" then
        match rest with
        | post_id :: reply_text :: _ =>
            let dry_run := negb (mem "--live" argv) in
            result <- reply_to_post environ post_id reply_text dry_run ;;
            ret (result, 0)
        | _ =>
            ret (VDict [ ("error",
                          VStr "Usage: reply <post_id> <text> [--live]") ],
                 1)
        end
      else if String.eqb cmd "warmup" then
        result <- warmup_actions environ ;;
        ret (result, 0)
      else if String.eqb cmd "status" then
        result <- check_status environ ;;
        ret (result, 0)
      else
        ret (VDict [ ("error", VStr ("Unknown command: " ++ cmd)) ], 1)
  end.

End Scanner.

(** A run of an operation as a fresh process: nothing logged, no local
    list yet. *)
Definition start {W} (w : W) : state W := mkState w [] [].

Definition run {W A} (op : Eff.M W A) (w : W) : res A * state W :=
  op (start w).

(** ** An in-memory service *)

(** A small Reddit in memory: the capability interface implemented once
    more, to run the operations on concrete data. *)
Module Fake.

Record World : Type := {
  account : option Redditor;
  new_posts : list (string * listing);
  hot_posts : listing;
  posts : list (string * Submission)
}.

Fixpoint lookup {A} (k : string) (l : list (string * A)) : option A :=
  match l with
  | [] => None
  | (k', v) :: l' => if String.eqb k k' then Some v else lookup k l'
  end.

Definition limited (limit : Z) (g : listing) : listing :=
  (firstn (Z.to_nat limit) (fst g), snd g).

Definition add_comment (c : CommentNode) (post : Submission) : Submission :=
  {| sub_id := sub_id post;
     sub_title := sub_title post;
     sub_selftext := sub_selftext post;
     sub_permalink := sub_permalink post;
     sub_subreddit := sub_subreddit post;
     sub_score := sub_score post;
     sub_num_comments := sub_num_comments post + 1;
     sub_created_utc := sub_created_utc post;
     sub_comments := c :: sub_comments post |}.

Fixpoint update (k : string) (f : Submission -> Submission)
  (l : list (string * Submission)) : list (string * Submission) :=
  match l with
  | [] => []
  | (k', v) :: l' =>
      if String.eqb k k' then (k', f v) :: l' else (k', v) :: update k f l'
  end.

Definition service_with (init : Reddit -> option string) : Service World := {|
  reddit_init := init;
  subreddit_new := fun _ name limit w =>
    (match lookup name (new_posts w) with
     | Some g => limited limit g
     | None => ([], Some "received 404 HTTP response")
     end, w);
  subreddit_hot := fun _ _ limit w => (limited limit (hot_posts w), w);
  submission_fetch := fun _ post_id w =>
    (match lookup post_id (posts w) with
     | Some p => Ok p
     | None => Exn "received 404 HTTP response"
     end, w);
  user_me := fun reddit w =>
    (match kw_login reddit with
     | Some _ => Ok (account w)
     | None => Ok None
     end, w);
  submission_reply := fun reddit post_id text w =>
    match kw_login reddit, account w, lookup post_id (posts w) with
    | Some _, Some me, Some p =>
        (Ok {| com_id := "c1";
               com_permalink := (sub_permalink p ++ "c1/")%string |},
         {| account := account w;
            new_posts := new_posts w;
            hot_posts := hot_posts w;
            posts := update post_id
                       (add_comment (Comment (Some (me_name me)) []))
                       (posts w) |})
    | _, _, _ => (Exn "received 403 HTTP response", w)
    end
|}.

(** The local PRAW configuration is in order: the constructor succeeds. *)
Definition service : Service World := service_with (fun _ => None).

(** The environment variable [praw_site] names a section that [praw.ini]
    does not have: the constructor raises. *)
Definition service_bad_site : Service World :=
  service_with (fun _ => Some "No section: 'nosuchsite'").

(** [round((now - t) / d, 1)] at a fixed clock, in whole units. *)
Definition rounded_age (now d t : Z) : pyval := VInt ((now - t) / d).

Definition environ (l : list (string * string)) : Env := fun k => lookup k l.

Definition full_env : Env :=
  environ [ ("REDDIT_CLIENT_ID", "id"); ("REDDIT_CLIENT_SECRET", "secret");
            ("REDDIT_USERNAME", "fishbig"); ("REDDIT_PASSWORD", "pw") ].

Definition post (id title body : string) (created : Z)
  (comments : list CommentNode) : Submission :=
  {| sub_id := id;
     sub_title := title;
     sub_selftext := Some body;
     sub_permalink := ("/r/SaaS/comments/" ++ id ++ "/")%string;
     sub_subreddit := "SaaS";
     sub_score := 1;
     sub_num_comments := Z.of_nat (length comments);
     sub_created_utc := created;
     sub_comments := comments |}.

Definition fishbig (link_karma comment_karma : Z) : Redditor :=
  {| me_name := "fishbig";
     me_link_karma := link_karma;
     me_comment_karma := comment_karma;
     me_created_utc := 1700000000;
     me_has_verified_email := true |}.

End Fake.


(** ** Concrete runs *)

(** Small remote states for the in-memory service, and the operations
    instantiated on it with ASCII lower-casing and a fixed clock. *)
Module Examples.

Definition clock : Z -> Z -> pyval := Fake.rounded_age 1800000000.

Definition scan := scan_opportunities Fake.service lower_ascii clock.
Definition reply := reply_to_post Fake.service.
Definition warmup := warmup_actions Fake.service clock.
Definition status := check_status Fake.service clock.
Definition cli := main Fake.service lower_ascii clock.

(** The client id is set, the secret is not. *)
Definition no_secret_env : Env :=
  Fake.environ [ ("REDDIT_CLIENT_ID", "id"); ("REDDIT_USERNAME", "fishbig") ].

Definition world (me : Redditor) (new_posts : list (string * listing))
  (posts : list Submission) : Fake.World :=
  {| Fake.account := Some me;
     Fake.new_posts := new_posts;
     Fake.hot_posts := ([], None);
     Fake.posts := map (fun p => (sub_id p, p)) posts |}.

(** The post of the spec's example. *)
Definition price_post : Submission :=
  Fake.post "p1" "Looking for a tool to track competitor prices"
    "Is there any price tracking service?" 1700000100 [].

(** A post whose title has the keyword "AI" in upper case. *)
Definition ai_post : Submission :=
  Fake.post "p2" "Which AI do you use for invoices?" "" 1700000200 [].

(** Two posts dated at the epoch and one second before it. *)
Definition epoch_post : Submission :=
  Fake.post "p3" "I need a scraping tool" "" 0 [].

Definition old_post : Submission :=
  Fake.post "p4" "Any workflow tips?" "" (-1) [].

(** The account already commented, in a reply the first fetch loaded. *)
Definition answered_post : Submission :=
  Fake.post "p5" "How do I automate invoices?" ""  1700000300
    [ Comment (Some "alice") [ Comment (Some "fishbig") [] ];
      Comment None [] ].

(** The account already commented, but its comment is behind a load-more
    placeholder. *)
Definition hidden_answer_post : Submission :=
  Fake.post "p6" "How do I automate invoices?" "" 1700000400
    [ Comment (Some "alice") [ MoreComments [ Comment (Some "fishbig") [] ] ];
      MoreComments [ Comment (Some "bob") [] ] ].

(** The list an operation returned, when it returned one. *)
Definition outcome_list (r : res pyval) : list pyval :=
  match r with
  | Ok (VList l) => l
  | _ => []
  end.

(** An account with enough karma. *)
Definition rich_world : Fake.World := world (Fake.fishbig 120 80) [] [].

Definition scan_world : Fake.World :=
  world (Fake.fishbig 40 15)
    [ ("SaaS", ([price_post; ai_post], None));
      ("startups", ([epoch_post; old_post], None));
      ("webdev", ([price_post], Some "received 503 HTTP response")) ]
    [ answered_post; hidden_answer_post ].

End Examples.

Local Open Scope list_scope.

(** ** Vocabulary of the statements *)

(** [needle] occurs in [hay] as a contiguous substring. *)
Definition occurs_in (needle hay : string) : Prop :=
  exists before after : string, hay = (before ++ needle ++ after)%string.


(** [x] may stand before [y] in the output: its key is no smaller. *)
Definition recent_first (x y : pyval) : Prop := sort_key y <= sort_key x.

(** The node is a comment, not a placeholder. *)
Definition is_comment (c : CommentNode) : Prop :=
  match c with Comment _ _ => True | MoreComments _ => False end.

Section Vocabulary.
Context {W : Type}.
Variable svc : Service W.
Variable lower : string -> string.
Variable rounded_age : Z -> Z -> pyval.

(** What one post appends to [results]. *)
Definition post_records (kws : list string) (sub_name : string)
  (post : Submission) : list pyval :=
  match matched_keywords lower kws post with
  | [] => []
  | matched => [post_record rounded_age sub_name post matched]
  end.

(** What one subreddit appends to [results]. *)
Definition listing_records (kws : list string) (sub_name : string)
  (g : listing) : list pyval :=
  flat_map (post_records kws sub_name) (fst g) ++
  match snd g with
  | Some e => [scan_error_record sub_name e]
  | None => []
  end.

(** The listings the service answers with, one per subreddit in order. *)
Fixpoint scan_answers (reddit : Reddit) (limit : Z) (subs : list string)
  (w : W) : list (string * listing) * W :=
  match subs with
  | [] => ([], w)
  | name :: subs' =>
      let (g, w1) := subreddit_new svc reddit name limit w in
      let (rest, w2) := scan_answers reddit limit subs' w1 in
      ((name, g) :: rest, w2)
  end.

Definition answer_event (limit : Z) (a : string * listing) : event :=
  ENew (fst a) limit (snd a).

Definition answer_records (kws : list string) (a : string * listing)
  : list pyval :=
  listing_records kws (fst a) (snd a).

(** From remote state [w], fetching the post and then the profile both
    succeed, leave the remote state [w2], and the forest the fetch loaded,
    its placeholders removed, holds a comment by the account. *)
Definition reads_show_own_comment (reddit : Reddit) (post_id : string)
  (w w2 : W) : Prop :=
  exists submission w1 me,
    submission_fetch svc reddit post_id w = (Ok submission, w1) /\
    user_me svc reddit w1 = (Ok (Some me), w2) /\
    Forest.has_comment_by (me_name me)
      (Forest.replace_more_0 (sub_comments submission)) = true.

End Vocabulary.

(** [sep.join(l)]. *)
Fixpoint join (sep : string) (l : list string) : string :=
  match l with
  | [] => EmptyString
  | x :: l' =>
      (x ++ match l' with
            | [] => EmptyString
            | _ :: _ => sep ++ join sep l'
            end)%string
  end.

(** The string is empty or begins with the first byte of a code point: a
    cut before it falls between two characters. *)
Definition at_boundary (s : string) : Prop :=
  match s with
  | EmptyString => True
  | String c _ => is_continuation c = false
  end.

(** The character does not occur in the string. *)
Fixpoint free_of (c : ascii) (s : string) : Prop :=
  match s with
  | EmptyString => True
  | String c' s' => c' <> c /\ free_of c s'
  end.

Section RecordsOfTheLog.
Variable lower : string -> string.
Variable rounded_age : Z -> Z -> pyval.

(** What a logged request appended to [results]: the records of a listing
    request, nothing for the others. *)
Definition event_records (kws : list string) (ev : event) : list pyval :=
  match ev with
  | ENew name _ g => listing_records lower rounded_age kws name g
  | _ => []
  end.

End RecordsOfTheLog.

(** The inline error record of a listing request that raised. *)
Definition event_errors (ev : event) : list pyval :=
  match ev with
  | ENew name _ (_, Some e) => [scan_error_record name e]
  | _ => []
  end.

(** The command line names one of the four subcommands, with the two
    arguments [reply] needs. *)
Definition recognized (argv : list string) : bool :=
  match argv with
  | _ :: cmd :: rest =>
      String.eqb cmd "scan" || String.eqb cmd "warmup"
      || String.eqb cmd "status"
      || (String.eqb cmd "reply" && Nat.leb 2 (length rest))
  | _ => false
  end.

(** ** Substring occurrence *)

Lemma prefix_iff (p s : string) :
  String.prefix p s = true <-> exists rest, s = (p ++ rest)%string.
Proof.
  revert s; induction p as [|a p IH]; intros s; simpl.
  - split; [intros _; now exists s | now destruct s].
  - destruct s as [|b s]; simpl.
    + split; [discriminate | intros [rest H]; discriminate].
    + destruct (Ascii.ascii_dec a b) as [->|Hne].
      * rewrite IH. split; intros [rest H]; exists rest.
        -- now rewrite H.
        -- now injection H.
      * split; [discriminate | intros [rest H]; injection H; congruence].
Qed.

Lemma contains_iff (needle hay : string) :
  contains needle hay = true <-> occurs_in needle hay.
Proof.
  unfold occurs_in. induction hay as [|c hay IH]; cbn [contains].
  - rewrite orb_false_r, prefix_iff. split.
    + intros [rest H]. now exists EmptyString, rest.
    + intros [[|b before] [rest H]]; [now exists rest | discriminate].
  - rewrite orb_true_iff, prefix_iff, IH. split.
    + intros [[rest H] | [before [rest H]]].
      * now exists EmptyString, rest.
      * exists (String c before), rest. simpl. now rewrite H.
    + intros [[|b before] [rest H]].
      * left. now exists rest.
      * right. simpl in H. injection H as _ H. now exists before, rest.
Qed.

(** ** The sort *)

Lemma insert_desc_perm (x : pyval) (l : list pyval) :
  Permutation (insert_desc x l) (x :: l).
Proof.
  induction l as [|y l IH]; simpl; [reflexivity|].
  destruct (sort_key y <=? sort_key x); [reflexivity|].
  rewrite IH. apply perm_swap.
Qed.

Lemma sort_desc_perm (l : list pyval) : Permutation (sort_desc l) l.
Proof.
  induction l as [|x l IH]; simpl; [reflexivity|].
  rewrite insert_desc_perm. now constructor.
Qed.

Lemma sort_desc_In (x : pyval) (l : list pyval) :
  In x (sort_desc l) <-> In x l.
Proof.
  split; apply Permutation_in;
    [apply sort_desc_perm | symmetry; apply sort_desc_perm].
Qed.

Lemma insert_desc_sorted (x : pyval) (l : list pyval) :
  StronglySorted recent_first l -> StronglySorted recent_first (insert_desc x l).
Proof.
  intros Hs; induction Hs as [|y l Hs IH Hy]; simpl.
  - repeat constructor.
  - destruct (sort_key y <=? sort_key x) eqn:Hc.
    + apply Z.leb_le in Hc. constructor; [now constructor|].
      constructor; [exact Hc|].
      eapply Forall_impl; [|exact Hy].
      unfold recent_first; intros z Hz; lia.
    + apply Z.leb_gt in Hc. constructor; [exact IH|].
      rewrite Forall_forall; intros z Hz.
      apply (Permutation_in _ (insert_desc_perm x l)) in Hz.
      destruct Hz as [<-|Hz].
      * unfold recent_first; lia.
      * rewrite Forall_forall in Hy. now apply Hy.
Qed.

Lemma sort_desc_sorted (l : list pyval) :
  StronglySorted recent_first (sort_desc l).
Proof.
  induction l as [|x l IH]; simpl; [constructor|].
  now apply insert_desc_sorted.
Qed.

(** Sortedness read by positions. *)
Lemma sorted_by_index (l : list pyval) :
  StronglySorted recent_first l ->
  forall (i j : nat) (x y : pyval),
    (i < j)%nat -> nth_error l i = Some x -> nth_error l j = Some y ->
    sort_key y <= sort_key x.
Proof.
  intros Hs; induction Hs as [|z l Hs IH Hz]; intros i j x y Hij Hi Hj.
  - destruct i; discriminate.
  - destruct j as [|j]; [lia|]. simpl in Hj.
    destruct i as [|i]; simpl in Hi.
    + injection Hi as <-. rewrite Forall_forall in Hz.
      apply Hz. eapply nth_error_In; eauto.
    + apply (IH i j); auto. lia.
Qed.

(** ** Comment forests *)


Lemma comment_tree_ind (P : CommentNode -> Prop) :
  (forall a rs, Forall P rs -> P (Comment a rs)) ->
  (forall hidden, Forall P hidden -> P (MoreComments hidden)) ->
  forall c, P c.
Proof.
  intros on_comment on_more. fix IH 1. intros [a rs | hidden].
  - apply on_comment. induction rs as [|x rs IHrs]; constructor;
      [apply IH | exact IHrs].
  - apply on_more. induction hidden as [|x hidden IHh]; constructor;
      [apply IH | exact IHh].
Qed.

Module ForestFacts.
Import Forest.

Lemma nodes_unfold (c : CommentNode) :
  nodes c = c :: forest_nodes (replies_of c).
Proof. destruct c; reflexivity. Qed.

Lemma size_unfold (c : CommentNode) :
  size c = S (forest_size (replies_of c)).
Proof. destruct c; reflexivity. Qed.

Lemma forest_size_app (q r : list CommentNode) :
  forest_size (q ++ r) = (forest_size q + forest_size r)%nat.
Proof.
  unfold forest_size. induction q as [|c q IH]; simpl; [reflexivity|].
  rewrite IH. lia.
Qed.

Lemma forest_nodes_app (q r : list CommentNode) :
  forest_nodes (q ++ r) = forest_nodes q ++ forest_nodes r.
Proof. apply flat_map_app. Qed.

(** With fuel for every node, the queue walk visits exactly the nodes of
    the forest. *)
Lemma bfs_In (fuel : nat) :
  forall q : list CommentNode,
    (forest_size q <= fuel)%nat ->
    forall x, In x (bfs fuel q) <-> In x (forest_nodes q).
Proof.
  induction fuel as [|fuel IH]; intros q Hq x.
  - destruct q as [|c q]; [reflexivity|].
    unfold forest_size in Hq; simpl in Hq. rewrite size_unfold in Hq. lia.
  - destruct q as [|c q]; [reflexivity|].
    cbn [bfs]. unfold forest_nodes at 1. cbn [flat_map].
    fold (forest_nodes q). rewrite nodes_unfold.
    cbn [In app]. rewrite IH.
    + rewrite forest_nodes_app, !in_app_iff. tauto.
    + rewrite forest_size_app.
      unfold forest_size in Hq |- *. simpl in Hq.
      rewrite size_unfold in Hq. unfold forest_size in Hq. lia.
Qed.

Lemma comments_list_In (f : list CommentNode) (x : CommentNode) :
  In x (comments_list f) <-> In x (forest_nodes f).
Proof. apply bfs_In. apply Nat.le_refl. Qed.

(** After [replace_more(limit=0)] no placeholder is left, at any depth. *)
Lemma strip_only_comments (c : CommentNode) :
  Forall is_comment (forest_nodes (strip c)).
Proof.
  induction c as [a rs IH | hidden _] using comment_tree_ind.
  - cbn [strip forest_nodes flat_map nodes]. rewrite app_nil_r.
    constructor; [exact I|].
    induction IH as [|c rs Hc _ IHrs]; [constructor|].
    cbn [flat_map]. rewrite flat_map_app. apply Forall_app. split.
    + exact Hc.
    + exact IHrs.
  - constructor.
Qed.

Lemma replace_more_0_only_comments (f : list CommentNode) :
  Forall is_comment (forest_nodes (replace_more_0 f)).
Proof.
  unfold replace_more_0. induction f as [|c f IH]; [constructor|].
  cbn [flat_map]. rewrite forest_nodes_app. apply Forall_app. split.
  - apply strip_only_comments.
  - exact IH.
Qed.

Lemma existsb_same_members {A} (p : A -> bool) (l1 l2 : list A) :
  (forall x, In x l1 <-> In x l2) -> existsb p l1 = existsb p l2.
Proof.
  intros H. apply eq_true_iff_eq. rewrite !existsb_exists.
  split; intros [x [Hx Hp]]; exists x; split; auto; now apply H.
Qed.

End ForestFacts.

(** ** How the scan loop runs *)

Lemma bind_lift_ok {W A B} (a : A) (k : A -> Eff.M W B) :
  bind (lift (Ok a)) k = k a.
Proof. reflexivity. Qed.

Lemma bind_lift_exn {W A B} (e : string) (k : A -> Eff.M W B) :
  bind (lift (Exn e)) k = raise e.
Proof. reflexivity. Qed.

(** Steps over [reddit = get_reddit()] once its outcome is known. *)
Ltac enter_with Hr :=
  rewrite Hr; rewrite ?bind_lift_ok, ?bind_lift_exn; cbv beta iota.

Section ScanRuns.
Context {W : Type}.
Variable svc : Service W.
Variable lower : string -> string.
Variable rounded_age : Z -> Z -> pyval.

Lemma scan_answers_names reddit limit subs w :
  map fst (fst (scan_answers svc reddit limit subs w)) = subs.
Proof.
  revert w; induction subs as [|name subs IH]; intros w; simpl; [reflexivity|].
  destruct (subreddit_new svc reddit name limit w) as [g w1].
  specialize (IH w1).
  destruct (scan_answers svc reddit limit subs w1) as [rest w2].
  simpl in *. now rewrite IH.
Qed.

Lemma scan_posts_run kws sub_name posts (s : state W) :
  for_each posts (scan_post lower rounded_age kws sub_name) s =
  (Ok tt,
   mkState (remote s) (log s)
     (local_list s ++ flat_map (post_records lower rounded_age kws sub_name) posts)).
Proof.
  revert s; induction posts as [|p posts IH]; intros [w l r]; simpl.
  - unfold ret. now rewrite app_nil_r.
  - unfold bind, scan_post, post_records.
    destruct (matched_keywords lower kws p) as [|kw m] eqn:Hm.
    + unfold ret. rewrite IH. reflexivity.
    + unfold list_append. cbn [remote log local_list]. rewrite IH.
      cbn [remote log local_list]. now rewrite <- app_assoc.
Qed.

Lemma scan_sub_run reddit kws limit sub_name (s : state W) :
  scan_sub svc lower rounded_age reddit kws limit sub_name s =
  let (g, w') := subreddit_new svc reddit sub_name limit (remote s) in
  (Ok tt,
   mkState w' (log s ++ [ENew sub_name limit g])
     (local_list s ++ listing_records lower rounded_age kws sub_name g)).
Proof.
  unfold scan_sub, try_except, bind, call_new, request.
  destruct (subreddit_new svc reddit sub_name limit (remote s)) as [g w'].
  unfold for_listing, bind. rewrite scan_posts_run.
  cbn [remote log local_list]. unfold listing_records.
  destruct (snd g) as [e|].
  - unfold raise, list_append. cbn [remote log local_list].
    now rewrite <- app_assoc.
  - unfold ret. now rewrite app_nil_r.
Qed.

Lemma scan_loop_run reddit kws limit subs :
  forall s : state W,
    for_each subs (scan_sub svc lower rounded_age reddit kws limit) s =
    let (answers, w') := scan_answers svc reddit limit subs (remote s) in
    (Ok tt,
     mkState w' (log s ++ map (answer_event limit) answers)
       (local_list s ++ flat_map (answer_records lower rounded_age kws) answers)).
Proof.
  induction subs as [|name subs IH]; intros [w l r].
  - simpl. unfold ret. now rewrite !app_nil_r.
  - cbn [for_each]. unfold bind. rewrite scan_sub_run.
    cbn [remote log local_list scan_answers].
    destruct (subreddit_new svc reddit name limit w) as [g w1].
    rewrite IH. cbn [remote log local_list].
    destruct (scan_answers svc reddit limit subs w1) as [rest w2].
    cbn [map flat_map]. unfold answer_event at 2, answer_records at 2.
    cbn [fst snd]. now rewrite <- !app_assoc.
Qed.

(** A configured scan, in closed form: the answers in order, their
    records concatenated and sorted. *)
Lemma scan_run environ reddit subreddits keywords limit (w : W) :
  get_reddit svc environ = Ok (Some reddit) ->
  run (scan_opportunities svc lower rounded_age environ subreddits keywords
         limit) w =
  let (answers, w') :=
    scan_answers svc reddit limit (list_or subreddits DEFAULT_SUBS) w in
  let records :=
    flat_map (answer_records lower rounded_age (list_or keywords PAIN_KEYWORDS)) answers in
  (Ok (VList (sort_desc records)),
   mkState w' (map (answer_event limit) answers) records).
Proof.
  intros Hr. unfold run, scan_opportunities. enter_with Hr.
  unfold bind at 1. unfold list_reset. cbn [remote log local_list start].
  unfold bind at 1. rewrite scan_loop_run. cbn [remote log local_list].
  destruct (scan_answers svc reddit limit (list_or subreddits DEFAULT_SUBS) w)
    as [answers w'].
  reflexivity.
Qed.

End ScanRuns.

(** ** Properties of the scan *)

Section ScanProperties.
Context {W : Type}.
Variable svc : Service W.
Variable lower : string -> string.
Variable rounded_age : Z -> Z -> pyval.

Local Abbreviation scan := (scan_opportunities svc lower rounded_age).
Local Abbreviation record := (post_record rounded_age).



Lemma post_records_In kws n p x :
  In x (post_records lower rounded_age kws n p) <->
  matched_keywords lower kws p <> [] /\
  x = record n p (matched_keywords lower kws p).
Proof.
  unfold post_records.
  destruct (matched_keywords lower kws p) as [|kw m]; simpl.
  - split; [contradiction | intros [H _]; now apply H].
  - split.
    + intros [<-|[]]. split; [discriminate | reflexivity].
    + intros [_ ->]. now left.
Qed.

Lemma matched_keywords_In kws p kw :
  In kw (matched_keywords lower kws p) <->
  In kw kws /\ occurs_in kw (post_text lower p).
Proof.
  unfold matched_keywords. now rewrite filter_In, contains_iff.
Qed.


(** Every record of [results] is a post record or an inline error. *)
Lemma listing_records_In kws n g x :
  In x (listing_records lower rounded_age kws n g) <->
  (exists p, In p (fst g) /\ matched_keywords lower kws p <> [] /\
             x = record n p (matched_keywords lower kws p)) \/
  (exists e, snd g = Some e /\ x = scan_error_record n e).
Proof.
  unfold listing_records. rewrite in_app_iff, in_flat_map. split.
  - intros [[p [Hp Hx]] | Hx].
    + left. exists p. apply post_records_In in Hx. tauto.
    + right. destruct (snd g) as [e|]; [|contradiction].
      destruct Hx as [<-|[]]. now exists e.
  - intros [[p [Hp [Hm Hx]]] | [e [He Hx]]].
    + left. exists p. split; [exact Hp|]. apply post_records_In. tauto.
    + right. rewrite He. left. now symmetry.
Qed.

(** Unpacking a scan that returned a list. *)
Lemma scan_returns_list environ subreddits keywords limit (w : W) out s' :
  run (scan environ subreddits keywords limit) w = (Ok (VList out), s') ->
  exists reddit answers,
    get_reddit svc environ = Ok (Some reddit) /\
    fst (scan_answers svc reddit limit (list_or subreddits DEFAULT_SUBS) w)
      = answers /\
    log s' = map (answer_event limit) answers /\
    out = sort_desc
            (flat_map
               (answer_records lower rounded_age
                  (list_or keywords PAIN_KEYWORDS)) answers).
Proof.
  destruct (get_reddit svc environ) as [[reddit|]|e0] eqn:Hr.
  - rewrite (scan_run svc lower rounded_age _ reddit _ _ _ _ Hr).
    destruct (scan_answers svc reddit limit
                (list_or subreddits DEFAULT_SUBS) w) as [answers w'] eqn:Ha.
    intros H. injection H as <- <-. exists reddit, answers.
    rewrite Ha. repeat split; reflexivity.
  - unfold run, scan_opportunities. enter_with Hr. discriminate.
  - unfold run, scan_opportunities. enter_with Hr. discriminate.
Qed.

End ScanProperties.

Section ScanClaims.
Context {W : Type}.
Variable svc : Service W.
Variable lower : string -> string.
Variable rounded_age : Z -> Z -> pyval.

Local Abbreviation scan := (scan_opportunities svc lower rounded_age).
Local Abbreviation record := (post_record rounded_age).


(** C5.  For a scan whose fetched posts have positive creation timestamps,
    as the Unix times of Reddit posts are, the list returned is sorted
    non-increasing by creation timestamp, and every record that lacks a
    creation timestamp (the inline error records) stands after every
    record that has one. *)
Theorem scan_sorted_by_recency :
  forall environ subreddits keywords limit (w : W) out s',
    run (scan environ subreddits keywords limit) w = (Ok (VList out), s') ->
    (forall name lim posts e post,
        In (ENew name lim (posts, e)) (log s') -> In post posts ->
        0 < sub_created_utc post) ->
    (forall i j x y tx ty,
        (i < j)%nat -> nth_error out i = Some x -> nth_error out j = Some y ->
        get "created_utc" x = Some (VInt tx) ->
        get "created_utc" y = Some (VInt ty) ->
        ty <= tx) /\
    (forall i j x y,
        nth_error out i = Some x -> nth_error out j = Some y ->
        has_key "created_utc" x = false ->
        has_key "created_utc" y = true ->
        (j < i)%nat) /\
    (forall x, In x out ->
        (exists name post matched,
            x = record name post matched /\
            get "created_utc" x = Some (VInt (sub_created_utc post))) \/
        (exists name e,
            x = scan_error_record name e /\
            has_key "created_utc" x = false)).
Proof.
  intros environ subreddits keywords limit w out s' Hrun Hpos.
  destruct (scan_returns_list svc lower rounded_age _ _ _ _ _ _ _ Hrun)
    as [reddit [answers [Hr [Ha [Hlog Hout]]]]].
  assert (Hsorted : forall i j x y,
             (i < j)%nat -> nth_error out i = Some x ->
             nth_error out j = Some y -> sort_key y <= sort_key x).
  { rewrite Hout. apply sorted_by_index, sort_desc_sorted. }
  assert (Hkinds : forall x, In x out ->
             (exists name posts e post matched,
                 In (ENew name limit (posts, e)) (log s') /\ In post posts /\
                 x = record name post matched) \/
             (exists name e, x = scan_error_record name e)).
  { intros x Hx. rewrite Hout, sort_desc_In, in_flat_map in Hx.
    destruct Hx as [[n [posts e]] [Hin Hx]]. unfold answer_records in Hx.
    apply listing_records_In in Hx. cbn [fst snd] in Hx.
    destruct Hx as [[p [Hp [_ Hx]]] | [err [_ Hx]]].
    - left. exists n, posts, e, p, (matched_keywords lower
                                      (list_or keywords PAIN_KEYWORDS) p).
      split; [|split; [exact Hp | exact Hx]].
      rewrite Hlog. apply in_map_iff. now exists (n, (posts, e)).
    - right. now exists n, err. }
  split; [|split].
  - intros i j x y tx ty Hij Hi Hj Hx Hy.
    pose proof (Hsorted i j x y Hij Hi Hj) as Hle.
    unfold sort_key in Hle. now rewrite Hx, Hy in Hle.
  - intros i j x y Hi Hj Hx Hy.
    assert (Hky : 0 < sort_key y).
    { destruct (Hkinds y (nth_error_In _ _ Hj))
        as [[n [posts [e [p [m [Hev [Hp ->]]]]]]] | [n [e ->]]].
      - apply (Hpos n limit posts e p Hev Hp).
      - discriminate. }
    assert (Hkx : sort_key x = 0).
    { unfold sort_key. unfold has_key in Hx.
      now destruct (get "created_utc" x). }
    destruct (Nat.lt_trichotomy i j) as [Hlt | [Heq | Hgt]];
      [exfalso | exfalso | exact Hgt].
    + pose proof (Hsorted i j x y Hlt Hi Hj). lia.
    + subst j. rewrite Hi in Hj. injection Hj as ->. lia.
  - intros x Hx.
    destruct (Hkinds x Hx)
      as [[n [posts [e [p [m [_ [_ ->]]]]]]] | [n [e ->]]].
    + left. exists n, p, m. split; reflexivity.
    + right. exists n, e. split; reflexivity.
Qed.

(** C8.  In a configured scan every subreddit of the list in force gets its
    listing request, in order, whatever the earlier requests did; and a
    listing that raised [e] for subreddit [name] leaves, in the output, the
    inline error record that names [name] and [e]. *)
Theorem scan_survives_subreddit_failure :
  forall environ reddit subreddits keywords limit (w : W),
    get_reddit svc environ = Ok (Some reddit) ->
    exists out s' answers,
      run (scan environ subreddits keywords limit) w = (Ok (VList out), s') /\
      log s' = map (fun a => ENew (fst a) limit (snd a)) answers /\
      map fst answers = list_or subreddits DEFAULT_SUBS /\
      forall name posts e,
        In (name, (posts, Some e)) answers ->
        In (VDict [("error",
                    VStr ("Failed to scan r/" ++ name ++ ": " ++ e))]) out.
Proof.
  intros environ reddit subreddits keywords limit w Hr.
  rewrite (scan_run svc lower rounded_age _ reddit _ _ _ _ Hr).
  pose proof (scan_answers_names svc reddit limit
                (list_or subreddits DEFAULT_SUBS) w) as Hnames.
  destruct (scan_answers svc reddit limit
              (list_or subreddits DEFAULT_SUBS) w) as [answers w'].
  eexists _, _, answers. split; [reflexivity|].
  split; [reflexivity|]. split; [exact Hnames|].
  intros name posts e Hin. rewrite sort_desc_In, in_flat_map.
  exists (name, (posts, Some e)). split; [exact Hin|].
  unfold answer_records. apply listing_records_In. right.
  exists e. split; reflexivity.
Qed.

(** C10 (as amended).  An empty subreddit list, like an absent one, is
    replaced by the eight default subreddits, and an empty keyword list,
    like an absent one, by the nineteen default keywords: the scanner is
    the same function on either, and a configured scan of the empty
    subreddit list makes eight listing requests. *)
Theorem scan_empty_list_is_default :
  forall environ subreddits keywords limit,
    scan environ (Some []) keywords limit
      = scan environ (Some DEFAULT_SUBS) keywords limit /\
    scan environ None keywords limit
      = scan environ (Some DEFAULT_SUBS) keywords limit /\
    scan environ subreddits (Some []) limit
      = scan environ subreddits (Some PAIN_KEYWORDS) limit /\
    scan environ subreddits None limit
      = scan environ subreddits (Some PAIN_KEYWORDS) limit /\
    length DEFAULT_SUBS = 8%nat /\
    length PAIN_KEYWORDS = 19%nat /\
    forall reddit (w : W),
      get_reddit svc environ = Ok (Some reddit) ->
      length (log (snd (run (scan environ (Some []) keywords limit) w)))
        = 8%nat.
Proof.
  intros environ subreddits keywords limit.
  repeat (split; [reflexivity|]).
  intros reddit w Hreddit.
  rewrite (scan_run svc lower rounded_age _ reddit _ _ _ _ Hreddit).
  pose proof (scan_answers_names svc reddit limit
                (list_or (Some []) DEFAULT_SUBS) w) as Hnames.
  destruct (scan_answers svc reddit limit (list_or (Some []) DEFAULT_SUBS) w)
    as [answers w'].
  cbn [snd log fst] in *. rewrite length_map.
  rewrite <- (length_map fst), Hnames. reflexivity.
Qed.

End ScanClaims.

(** ** Properties of reply, warmup and status *)

(** Unfolds the monad, so that a run shows the calls it makes. *)
Ltac unfold_eff :=
  unfold run, start, for_listing,
    call_fetch, call_me, call_reply, call_hot, call_new,
    request, request_res, list_reset, list_read,
    try_except, bind, ret, raise in *;
  cbn [remote log local_list fst snd] in *.

(** Splits on the next thing the run depends on. *)
Ltac split_run :=
  match goal with
  | |- context [match ?x with _ => _ end] =>
      destruct x eqn:?; cbn [remote log local_list fst snd] in *
  end.


Section OperationRuns.
Context {W : Type}.
Variable svc : Service W.
Variable lower : string -> string.
Variable rounded_age : Z -> Z -> pyval.

Lemma any_author_comments name (l : list CommentNode) :
  Forall is_comment l ->
  any_author name l = Ok (existsb (Forest.written_by name) l).
Proof.
  induction 1 as [|c l Hc _ IH]; [reflexivity|].
  destruct c as [[a|] rs | hidden]; simpl in *; try contradiction.
  - destruct (String.eqb a name); [reflexivity | exact IH].
  - exact IH.
Qed.

(** The duplicate check of [reply_to_post] never raises, and says whether
    the forest left by [replace_more(limit=0)] holds a comment by [name]. *)
Lemma already_replied_check name (f : list CommentNode) :
  any_author name (Forest.comments_list (Forest.replace_more_0 f)) =
  Ok (Forest.has_comment_by name (Forest.replace_more_0 f)).
Proof.
  rewrite any_author_comments.
  - f_equal. apply ForestFacts.existsb_same_members.
    apply ForestFacts.comments_list_In.
  - rewrite Forall_forall. intros x Hx.
    apply ForestFacts.comments_list_In in Hx.
    pose proof (ForestFacts.replace_more_0_only_comments f) as Hall.
    rewrite Forall_forall in Hall. now apply Hall.
Qed.

Lemma hot_posts_run posts (s : state W) :
  for_each posts (fun post => list_append (hot_record post)) s =
  (Ok tt,
   mkState (remote s) (log s) (local_list s ++ map hot_record posts)).
Proof.
  revert s; induction posts as [|p posts IH]; intros [w l r]; simpl.
  - unfold ret. now rewrite app_nil_r.
  - unfold bind, list_append. cbn [remote log local_list]. rewrite IH.
    cbn [remote log local_list]. now rewrite <- app_assoc.
Qed.

Lemma no_reply_in_answers limit (answers : list (string * listing)) :
  existsb is_reply (map (answer_event limit) answers) = false.
Proof. induction answers as [|a l IH]; [reflexivity | exact IH]. Qed.

(** When the constructor raises, so does every operation, at once: no
    request is made and nothing is returned. *)
Lemma constructor_raises environ e (w : W) :
  get_reddit svc environ = Exn e ->
  (forall subreddits keywords limit,
      run (scan_opportunities svc lower rounded_age environ subreddits
             keywords limit) w = (Exn e, mkState w [] [])) /\
  (forall post_id reply_text dry_run,
      run (reply_to_post svc environ post_id reply_text dry_run) w
        = (Exn e, mkState w [] [])) /\
  run (warmup_actions svc rounded_age environ) w
    = (Exn e, mkState w [] []) /\
  run (check_status svc rounded_age environ) w = (Exn e, mkState w [] []).
Proof.
  intros Hr.
  unfold run, scan_opportunities, reply_to_post, warmup_actions,
    check_status.
  rewrite Hr. repeat split; reflexivity.
Qed.

(** A scan never submits a comment and never reports a status. *)
Lemma scan_never_replies environ subreddits keywords limit (w : W) :
  existsb is_reply
    (log (snd (run (scan_opportunities svc lower rounded_age environ
                      subreddits keywords limit) w))) = false /\
  ((exists e, get_reddit svc environ = Exn e /\
      run (scan_opportunities svc lower rounded_age environ
             subreddits keywords limit) w = (Exn e, mkState w [] [])) \/
   exists v,
     fst (run (scan_opportunities svc lower rounded_age environ
                 subreddits keywords limit) w) = Ok v /\
     get "status" v = None).
Proof.
  destruct (get_reddit svc environ) as [[reddit|]|e0] eqn:Hr.
  - rewrite (scan_run svc lower rounded_age _ reddit _ _ _ _ Hr).
    destruct (scan_answers svc reddit limit
                (list_or subreddits DEFAULT_SUBS) w) as [answers w'].
    cbn [fst snd log]. split; [apply no_reply_in_answers|].
    right. eexists; split; reflexivity.
  - unfold run, scan_opportunities. enter_with Hr. split; [reflexivity|].
    right. eexists; split; reflexivity.
  - destruct (constructor_raises environ e0 w Hr) as [Hscan _].
    rewrite Hscan. split; [reflexivity|]. left. now exists e0.
Qed.

End OperationRuns.

Section ReplyClaims.
Context {W : Type}.
Variable svc : Service W.
Variable lower : string -> string.
Variable rounded_age : Z -> Z -> pyval.

Local Abbreviation reply := (reply_to_post svc).

(** C2 (as amended).  When the fetch of the post and the profile lookup
    succeed and the comment forest as first loaded, with its load-more
    placeholders removed (not expanded), holds a comment by the
    authenticated account, the reply executor returns [skipped], makes the
    two reads and no comment submission; a second invocation on the state
    the first one left does the same when the reads show the comment
    again. *)
Theorem reply_skips_when_already_replied :
  forall environ reddit post_id reply_text dry_run (w w2 : W),
    get_reddit svc environ = Ok (Some reddit) ->
    reads_show_own_comment svc reddit post_id w w2 ->
    (exists evs,
        run (reply environ post_id reply_text dry_run) w
          = (Ok skipped, mkState w2 evs []) /\
        existsb is_reply evs = false) /\
    forall w4,
      reads_show_own_comment svc reddit post_id w2 w4 ->
      exists evs,
        run (reply environ post_id reply_text dry_run) w2
          = (Ok skipped, mkState w4 evs []) /\
        existsb is_reply evs = false.
Proof.
  assert (Hone : forall environ reddit post_id reply_text dry_run (w w2 : W),
             get_reddit svc environ = Ok (Some reddit) ->
             reads_show_own_comment svc reddit post_id w w2 ->
             exists evs,
               run (reply environ post_id reply_text dry_run) w
                 = (Ok skipped, mkState w2 evs []) /\
               existsb is_reply evs = false).
  { intros environ reddit post_id reply_text dry_run w w2 Hr
      [submission [w1 [me [Hfetch [Hme Hown]]]]].
    unfold reply_to_post. enter_with Hr. unfold_eff. unfold lift.
    rewrite Hfetch. cbn [remote log local_list]. rewrite Hme.
    rewrite already_replied_check, Hown.
    eexists. split; reflexivity. }
  intros environ reddit post_id reply_text dry_run w w2 Hr Hw.
  split; [now apply (Hone environ reddit)|].
  intros w4 Hw2. now apply (Hone environ reddit).
Qed.

(** Every path of [reply_to_post]: what it returns, by what it logged. *)
Lemma reply_cases environ post_id reply_text dry_run (w : W) :
  (exists e,
      get_reddit svc environ = Exn e /\
      run (reply environ post_id reply_text dry_run) w
        = (Exn e, mkState w [] [])) \/
  exists v,
    fst (run (reply environ post_id reply_text dry_run) w) = Ok v /\
    let evs := log (snd (run (reply environ post_id reply_text dry_run) w)) in
    (forall ev e, In ev evs -> failure_of ev = Some e ->
                  v = VDict [("error", VStr e)]) /\
    (dry_run = true -> existsb is_reply evs = false) /\
    (get "status" v = Some (VStr "replied") -> dry_run = false) /\
    (existsb is_reply evs = true -> dry_run = false).
Proof.
  destruct (get_reddit svc environ) as [[reddit|]|e0] eqn:Hr.
  3:{ left. exists e0. split; [reflexivity|].
      apply (constructor_raises svc lower rounded_age environ e0 w Hr). }
  2:{ right. unfold reply_to_post. enter_with Hr.
      eexists; split; [reflexivity|]. cbn. repeat split; try discriminate.
      intros ev e []. }
  right. unfold reply_to_post. enter_with Hr.
  unfold_eff. unfold lift.
  destruct (submission_fetch svc reddit post_id w) as [[submission|e1] w1];
    cbn [remote log local_list fst snd].
  2:{ eexists; split; [reflexivity|]. cbn. repeat split; try discriminate.
      intros ev e [<-|[]]. cbn. now intros [= ->]. }
  destruct (user_me svc reddit w1) as [[[me|]|e2] w2];
    cbn [remote log local_list fst snd].
  3:{ eexists; split; [reflexivity|]. cbn. repeat split; try discriminate.
      intros ev e [<-|[<-|[]]]; cbn; [discriminate | now intros [= ->]]. }
  1: rewrite already_replied_check;
     destruct (Forest.has_comment_by (me_name me)
                 (Forest.replace_more_0 (sub_comments submission))).
  1:{ eexists; split; [reflexivity|]. cbn. repeat split; try discriminate.
      intros ev e [<-|[<-|[]]]; cbn; discriminate. }
  all: destruct dry_run.
  1,3:
    (eexists; split; [reflexivity|]; cbn; repeat split; try discriminate;
     intros ev e [<-|[<-|[]]]; cbn; discriminate).
  all: cbn [remote log local_list fst snd];
       destruct (submission_reply svc reddit post_id reply_text w2)
         as [[comment|e3] w3];
       cbn [remote log local_list fst snd];
       (eexists; split; [reflexivity|]); cbn; repeat split;
       try discriminate;
       intros ev e [<-|[<-|[<-|[]]]]; cbn; try discriminate;
       now intros [= ->].
Qed.

End ReplyClaims.

Section OperationClaims.
Context {W : Type}.
Variable svc : Service W.
Variable lower : string -> string.
Variable rounded_age : Z -> Z -> pyval.

Local Abbreviation scan := (scan_opportunities svc lower rounded_age).
Local Abbreviation reply := (reply_to_post svc).
Local Abbreviation warmup := (warmup_actions svc rounded_age).
Local Abbreviation status := (check_status svc rounded_age).
Local Abbreviation cli := (main svc lower rounded_age).

(** Every path of [warmup_actions]. *)
Lemma warmup_cases environ (w : W) :
  (exists e,
      get_reddit svc environ = Exn e /\
      run (warmup environ) w = (Exn e, mkState w [] [])) \/
  exists v,
    fst (run (warmup environ) w) = Ok v /\
    let evs := log (snd (run (warmup environ) w)) in
    (forall ev e, In ev evs -> failure_of ev = Some e ->
                  v = VDict [("error", VStr e)]) /\
    existsb is_reply evs = false /\
    get "status" v <> Some (VStr "replied").
Proof.
  destruct (get_reddit svc environ) as [[reddit|]|e0] eqn:Hr.
  3:{ left. exists e0. split; [reflexivity|].
      apply (constructor_raises svc lower rounded_age environ e0 w Hr). }
  2:{ right. unfold warmup_actions. enter_with Hr.
      eexists; split; [reflexivity|]. cbn. repeat split; try discriminate.
      intros ev e []. }
  right. unfold warmup_actions. enter_with Hr.
  unfold_eff.
  destruct (user_me svc reddit w) as [[me|e1] w1];
    cbn [remote log local_list fst snd].
  2:{ eexists; split; [reflexivity|]. cbn. repeat split; try discriminate.
      intros ev e [<-|[]]. cbn. now intros [= ->]. }
  destruct (subreddit_hot svc reddit "all" 5 w1) as [[posts oe] w2];
    cbn [remote log local_list fst snd].
  rewrite hot_posts_run. cbn [remote log local_list fst snd].
  destruct oe as [e2|]; cbn [remote log local_list fst snd];
    (eexists; split; [reflexivity|]); cbn; repeat split; try discriminate;
    intros ev e [<-|[<-|[]]]; cbn; try discriminate; now intros [= ->].
Qed.

(** Every path of [check_status]. *)
Lemma status_cases environ (w : W) :
  (exists e,
      get_reddit svc environ = Exn e /\
      run (status environ) w = (Exn e, mkState w [] [])) \/
  exists v,
    fst (run (status environ) w) = Ok v /\
    let evs := log (snd (run (status environ) w)) in
    (forall ev e, In ev evs -> failure_of ev = Some e ->
                  v = VDict [("error", VStr e)]) /\
    (In (EMe (Ok None)) evs -> exists e, v = VDict [("error", VStr e)]) /\
    existsb is_reply evs = false /\
    get "status" v = None.
Proof.
  destruct (get_reddit svc environ) as [[reddit|]|e0] eqn:Hr.
  3:{ left. exists e0. split; [reflexivity|].
      apply (constructor_raises svc lower rounded_age environ e0 w Hr). }
  2:{ right. unfold check_status. enter_with Hr.
      eexists; split; [reflexivity|]. cbn. repeat split; try discriminate.
      - intros ev e []. - intros []. }
  right. unfold check_status. enter_with Hr.
  unfold_eff.
  destruct (user_me svc reddit w) as [[[me|]|e1] w1];
    cbn [remote log local_list fst snd];
    (eexists; split; [reflexivity|]); cbn; repeat split; try discriminate.
  - intros ev e [<-|[]]; cbn; discriminate.
  - intros [H|[]]; discriminate.
  - intros ev e [<-|[]]; cbn; discriminate.
  - intros _. eexists; reflexivity.
  - intros ev e [<-|[]]; cbn. now intros [= ->].
  - intros [H|[]]; discriminate.
Qed.

(** Printing a result: [print(json.dumps(result))], exit status 0. *)
Lemma run_then_print (c : Eff.M W pyval) (w : W) :
  run (result <- c ;; ret (result, 0)) w =
  (match fst (run c w) with
   | Ok v => Ok (v, 0)
   | Exn e => Exn e
   end, snd (run c w)).
Proof. unfold run, bind, ret. now destruct (c (start w)) as [[v|e] s']. Qed.

(** What the printed document and the log of a subcommand say was already
    so for the operation it ran. *)
Lemma printed_status (c : Eff.M W pyval) (w : W) :
  existsb is_reply
    (log (snd (run (result <- c ;; ret (result, 0)) w))) = true \/
  (exists v code,
      fst (run (result <- c ;; ret (result, 0)) w) = Ok (v, code) /\
      get "status" v = Some (VStr "replied")) ->
  existsb is_reply (log (snd (run c w))) = true \/
  (exists v, fst (run c w) = Ok v /\
             get "status" v = Some (VStr "replied")).
Proof.
  rewrite run_then_print. cbn [fst snd].
  intros [H | [v [code [Hv H]]]]; [now left | right].
  destruct (fst (run c w)) as [v'|e]; [|discriminate].
  injection Hv as -> _. now exists v.
Qed.

(** A reply submits, or answers [replied], only with the flag cleared. *)
Lemma reply_facts environ post_id reply_text dry_run (w : W) :
  let r := run (reply environ post_id reply_text dry_run) w in
  (dry_run = true -> existsb is_reply (log (snd r)) = false) /\
  (existsb is_reply (log (snd r)) = true -> dry_run = false) /\
  (forall v, fst r = Ok v -> get "status" v = Some (VStr "replied") ->
             dry_run = false).
Proof.
  cbv zeta.
  destruct (reply_cases svc lower rounded_age environ post_id reply_text
              dry_run w)
    as [[e [_ Hraise]] | [v [Hv [_ [Hdry [Hst Hlog]]]]]].
  - rewrite Hraise. cbn. repeat split; try discriminate.
  - split; [exact Hdry|]. split; [exact Hlog|].
    intros v' Hv'. rewrite Hv in Hv'. injection Hv' as <-. exact Hst.
Qed.

Lemma mem_In x l : mem x l = true -> In x l.
Proof.
  unfold mem. rewrite existsb_exists. intros [y [Hy Heq]].
  apply String.eqb_eq in Heq. now subst.
Qed.

(** C3.  With the dry-run flag set the reply executor makes no comment
    submission and never reports [replied]; a [replied] result, and any
    comment submission at all, comes only from a call with the flag
    cleared; and the dispatcher clears the flag, submits or prints
    [replied] only when [--live] is among its arguments. *)
Theorem reply_dry_run_never_submits :
  (forall environ post_id reply_text (w : W),
      existsb is_reply
        (log (snd (run (reply environ post_id reply_text true) w))) = false /\
      forall v,
        fst (run (reply environ post_id reply_text true) w) = Ok v ->
        get "status" v <> Some (VStr "replied")) /\
  (forall environ post_id reply_text dry_run (w : W) v,
      fst (run (reply environ post_id reply_text dry_run) w) = Ok v ->
      get "status" v = Some (VStr "replied") ->
      dry_run = false) /\
  (forall environ argv (w : W),
      existsb is_reply (log (snd (run (cli environ argv) w))) = true \/
      (exists v code,
          fst (run (cli environ argv) w) = Ok (v, code) /\
          get "status" v = Some (VStr "replied")) ->
      In "--live" argv).
Proof.
  split; [|split].
  - intros environ post_id reply_text w.
    destruct (reply_facts environ post_id reply_text true w)
      as [Hdry [_ Hst]].
    split; [now apply Hdry|].
    intros v Hv Hrep. specialize (Hst v Hv Hrep). discriminate.
  - intros environ post_id reply_text dry_run w v Hv Hrep.
    destruct (reply_facts environ post_id reply_text dry_run w)
      as [_ [_ Hst]].
    now apply (Hst v).
  - intros environ argv w H. unfold main in H.
    destruct argv as [|prog [|cmd rest]].
    1,2: cbn in H; destruct H as [H | [v [code [[= <- <-] H]]]];
         discriminate.
    destruct (String.eqb cmd "scan").
    { apply printed_status in H.
      destruct (scan_never_replies svc lower rounded_age environ
                  (parse_subs rest) None 25 w)
        as [Hlog [[e [_ Hraise]] | [v [Hv Hst]]]];
        destruct H as [H | [v' [Hv' H]]]; try congruence.
      rewrite Hraise in Hv'. discriminate. }
    destruct (String.eqb cmd "reply").
    { destruct rest as [|post_id [|reply_text rest]].
      1,2: cbn in H; destruct H as [H | [v [code [[= <- <-] H]]]];
           discriminate.
      apply printed_status in H.
      destruct (reply_facts environ post_id reply_text
                  (negb (mem "--live" (prog :: cmd :: post_id
                                         :: reply_text :: rest))) w)
        as [_ [Hlog Hst]].
      apply mem_In. apply negb_false_iff.
      destruct H as [H | [v [Hv H]]]; [now apply Hlog | now apply (Hst v)]. }
    destruct (String.eqb cmd "warmup").
    { apply printed_status in H.
      destruct (warmup_cases environ w)
        as [[e [_ Hraise]] | [v [Hv [_ [Hlog Hst]]]]];
        destruct H as [H | [v' [Hv' H]]]; try rewrite Hraise in *;
        try discriminate; congruence. }
    destruct (String.eqb cmd "status").
    { apply printed_status in H.
      destruct (status_cases environ w)
        as [[e [_ Hraise]] | [v [Hv [_ [_ [Hlog Hst]]]]]];
        destruct H as [H | [v' [Hv' H]]]; try rewrite Hraise in *;
        try discriminate; congruence. }
    cbn in H. destruct H as [H | [v [code [[= <- <-] H]]]]; discriminate.
Qed.

Lemma get_reddit_unconfigured (environ : Env) :
  truthy (environ "REDDIT_CLIENT_ID") = false \/
  truthy (environ "REDDIT_CLIENT_SECRET") = false ->
  get_reddit svc environ = Ok None.
Proof.
  unfold get_reddit. intros [-> | ->]; [reflexivity|].
  now rewrite orb_true_r.
Qed.

(** C4.  When the client id or the client secret is absent from the
    environment, each of scan, reply, warmup and status returns an object
    with an error string, and the run ends as it started: nothing logged,
    the remote state untouched. *)
Theorem unconfigured_returns_error_without_calls :
  forall environ : Env,
    environ "REDDIT_CLIENT_ID" = None \/
    environ "REDDIT_CLIENT_SECRET" = None ->
    forall w : W,
      (forall subreddits keywords limit,
          run (scan environ subreddits keywords limit) w
            = (Ok not_configured_scan, mkState w [] [])) /\
      (forall post_id reply_text dry_run,
          run (reply environ post_id reply_text dry_run) w
            = (Ok not_configured, mkState w [] [])) /\
      run (warmup environ) w = (Ok not_configured, mkState w [] []) /\
      run (status environ) w = (Ok not_configured, mkState w [] []) /\
      (exists msg, not_configured_scan = VDict [("error", VStr msg)]) /\
      (exists msg, not_configured = VDict [("error", VStr msg)]).
Proof.
  intros environ Habs w.
  assert (Hr : get_reddit svc environ = Ok None).
  { apply get_reddit_unconfigured.
    destruct Habs as [-> | ->]; [left | right]; reflexivity. }
  unfold run, scan_opportunities, reply_to_post, warmup_actions,
    check_status.
  rewrite Hr. repeat split; try reflexivity; eexists; reflexivity.
Qed.

(** C6.  For an authenticated profile with link karma [L] and comment karma
    [C], the status operation returns [total_karma = L + C] and
    [ready_for_action] true exactly when [C >= 50], whatever [L] is. *)
Theorem status_total_and_readiness :
  forall environ reddit (w w1 : W) me,
    get_reddit svc environ = Ok (Some reddit) ->
    user_me svc reddit w = (Ok (Some me), w1) ->
    exists v,
      fst (run (status environ) w) = Ok v /\
      get "link_karma" v = Some (VInt (me_link_karma me)) /\
      get "comment_karma" v = Some (VInt (me_comment_karma me)) /\
      get "total_karma" v
        = Some (VInt (me_link_karma me + me_comment_karma me)) /\
      (get "ready_for_action" v = Some (VBool true) <->
       me_comment_karma me >= 50) /\
      (get "ready_for_action" v = Some (VBool false) <->
       me_comment_karma me < 50).
Proof.
  intros environ reddit w w1 me Hr Hme.
  unfold check_status. enter_with Hr. unfold_eff. rewrite Hme.
  cbn [remote log local_list fst snd].
  eexists. split; [reflexivity|]. cbn.
  repeat split; try reflexivity.
  - intros [= H]. apply Z.leb_le in H. lia.
  - intros H. do 2 f_equal. apply Z.leb_le. lia.
  - intros [= H]. apply Z.leb_gt in H. lia.
  - intros H. do 2 f_equal. apply Z.leb_gt. lia.
Qed.

(** C9 (as amended).  For an authenticated account whose profile lookup and
    trending listing succeed, the warmup result's suggestion is
    "Comment on these posts with genuine value to build karma" exactly
    when link karma plus comment karma is below 100, and
    "Ready for targeted replies" otherwise. *)
Theorem warmup_suggestion_by_karma :
  forall environ reddit (w w1 w2 : W) me posts,
    get_reddit svc environ = Ok (Some reddit) ->
    user_me svc reddit w = (Ok (Some me), w1) ->
    subreddit_hot svc reddit "all" 5 w1 = ((posts, None), w2) ->
    exists v,
      fst (run (warmup environ) w) = Ok v /\
      get "karma" v = Some (VInt (me_link_karma me + me_comment_karma me)) /\
      (me_link_karma me + me_comment_karma me < 100 ->
       get "suggestion" v
         = Some (VStr "Comment on these posts with genuine value to build karma")) /\
      (100 <= me_link_karma me + me_comment_karma me ->
       get "suggestion" v = Some (VStr "Ready for targeted replies")).
Proof.
  intros environ reddit w w1 w2 me posts Hr Hme Hhot.
  unfold warmup_actions. enter_with Hr. unfold_eff. rewrite Hme.
  cbn [remote log local_list fst snd]. rewrite Hhot.
  cbn [remote log local_list fst snd]. rewrite hot_posts_run.
  cbn [remote log local_list fst snd].
  eexists. split; [reflexivity|]. cbn.
  split; [reflexivity|]. split; intros Hk.
  - apply Z.ltb_lt in Hk. now rewrite Hk.
  - apply Z.ltb_ge in Hk. now rewrite Hk.
Qed.

(** C7 (as amended).  Once [get_reddit] has returned, with a handle or with
    none, each operation returns a value and raises nothing, whatever the
    arguments and the answers of the requests.  For reply, warmup and
    status, a request that raised [e] makes the result the object
    [{"error": e}] (so does a missing profile in status); for scan, the
    result is the configuration error object or a list in which every
    listing that raised [e] has left its inline error object.  The
    dispatcher then returns a document and an exit status. *)
Theorem operations_catch_request_exceptions :
  forall environ (w : W),
    (forall e, get_reddit svc environ <> Exn e) ->
    (forall subreddits keywords limit,
        exists v,
          fst (run (scan environ subreddits keywords limit) w) = Ok v /\
          (v = not_configured_scan \/
           exists out,
             v = VList out /\
             forall name lim posts e,
               In (ENew name lim (posts, Some e))
                  (log (snd (run (scan environ subreddits keywords limit) w)))
               -> In (scan_error_record name e) out)) /\
    (forall post_id reply_text dry_run,
        exists v,
          fst (run (reply environ post_id reply_text dry_run) w) = Ok v /\
          forall ev e,
            In ev (log (snd (run (reply environ post_id reply_text
                                    dry_run) w))) ->
            failure_of ev = Some e -> v = VDict [("error", VStr e)]) /\
    (exists v,
        fst (run (warmup environ) w) = Ok v /\
        forall ev e,
          In ev (log (snd (run (warmup environ) w))) ->
          failure_of ev = Some e -> v = VDict [("error", VStr e)]) /\
    (exists v,
        fst (run (status environ) w) = Ok v /\
        (forall ev e,
            In ev (log (snd (run (status environ) w))) ->
            failure_of ev = Some e -> v = VDict [("error", VStr e)]) /\
        (In (EMe (Ok None)) (log (snd (run (status environ) w))) ->
         exists e, v = VDict [("error", VStr e)])) /\
    (forall argv,
        exists v code, fst (run (cli environ argv) w) = Ok (v, code)).
Proof.
  intros environ w Hinit.
  assert (Hscan : forall subreddits keywords limit,
             exists v,
               fst (run (scan environ subreddits keywords limit) w) = Ok v /\
               (v = not_configured_scan \/
                exists out,
                  v = VList out /\
                  forall name lim posts e,
                    In (ENew name lim (posts, Some e))
                       (log (snd (run (scan environ subreddits keywords
                                         limit) w)))
                    -> In (scan_error_record name e) out)).
  { intros subreddits keywords limit.
    destruct (get_reddit svc environ) as [[reddit|]|e0] eqn:Hr;
      [| |now destruct (Hinit e0)].
    - rewrite (scan_run svc lower rounded_age _ reddit _ _ _ _ Hr).
      destruct (scan_answers svc reddit limit
                  (list_or subreddits DEFAULT_SUBS) w) as [answers w'].
      cbn [fst snd log]. eexists. split; [reflexivity|]. right.
      eexists. split; [reflexivity|].
      intros name lim posts e Hev. apply in_map_iff in Hev.
      destruct Hev as [[n g] [Heq Hin]]. unfold answer_event in Heq.
      simpl in Heq. injection Heq as -> _ ->.
      rewrite sort_desc_In, in_flat_map.
      exists (name, (posts, Some e)). split; [exact Hin|].
      unfold answer_records. apply listing_records_In. right.
      exists e. split; reflexivity.
    - unfold run, scan_opportunities. enter_with Hr.
      eexists. split; [reflexivity|]. now left. }
  assert (Hreply : forall post_id reply_text dry_run,
             exists v,
               fst (run (reply environ post_id reply_text dry_run) w)
                 = Ok v /\
               forall ev e,
                 In ev (log (snd (run (reply environ post_id reply_text
                                         dry_run) w))) ->
                 failure_of ev = Some e -> v = VDict [("error", VStr e)]).
  { intros post_id reply_text dry_run.
    destruct (reply_cases svc lower rounded_age environ post_id reply_text
                dry_run w) as [[e [He _]] | [v [Hv [Hfail _]]]];
      [now destruct (Hinit e)|].
    exists v. split; [exact Hv | exact Hfail]. }
  assert (Hwarmup : exists v,
             fst (run (warmup environ) w) = Ok v /\
             forall ev e,
               In ev (log (snd (run (warmup environ) w))) ->
               failure_of ev = Some e -> v = VDict [("error", VStr e)]).
  { destruct (warmup_cases environ w)
      as [[e [He _]] | [v [Hv [Hfail _]]]]; [now destruct (Hinit e)|].
    exists v. split; [exact Hv | exact Hfail]. }
  assert (Hstatus : exists v,
             fst (run (status environ) w) = Ok v /\
             (forall ev e,
                 In ev (log (snd (run (status environ) w))) ->
                 failure_of ev = Some e -> v = VDict [("error", VStr e)]) /\
             (In (EMe (Ok None)) (log (snd (run (status environ) w))) ->
              exists e, v = VDict [("error", VStr e)])).
  { destruct (status_cases environ w)
      as [[e [He _]] | [v [Hv [Hfail [Hnone _]]]]];
      [now destruct (Hinit e)|].
    exists v. split; [exact Hv|]. split; [exact Hfail | exact Hnone]. }
  split; [exact Hscan|]. split; [exact Hreply|].
  split; [exact Hwarmup|]. split; [exact Hstatus|].
  intros argv. unfold main.
  destruct argv as [|prog [|cmd rest]];
    [eexists _, _; reflexivity | eexists _, _; reflexivity |].
  destruct (String.eqb cmd "scan").
  { rewrite run_then_print.
    destruct (Hscan (parse_subs rest) None 25) as [v [Hv _]].
    cbn [fst]. rewrite Hv. now eexists _, _. }
  destruct (String.eqb cmd "reply").
  { destruct rest as [|post_id [|reply_text rest]];
      [eexists _, _; reflexivity | eexists _, _; reflexivity |].
    rewrite run_then_print.
    destruct (Hreply post_id reply_text
                (negb (mem "--live" (prog :: cmd :: post_id
                                       :: reply_text :: rest))))
      as [v [Hv _]].
    cbn [fst]. rewrite Hv. now eexists _, _. }
  destruct (String.eqb cmd "warmup").
  { rewrite run_then_print. destruct Hwarmup as [v [Hv _]].
    cbn [fst]. rewrite Hv. now eexists _, _. }
  destruct (String.eqb cmd "status").
  { rewrite run_then_print. destruct Hstatus as [v [Hv _]].
    cbn [fst]. rewrite Hv. now eexists _, _. }
  eexists _, _; reflexivity.
Qed.

End OperationClaims.

(** ** The properties on concrete runs *)

Section ConcreteRuns.
Import Examples.



Lemma reply_skips_when_already_replied_witness :
  (exists evs,
      run (reply Fake.full_env "p5" "Try our tool" false) scan_world
        = (Ok skipped, mkState scan_world evs []) /\
      existsb is_reply evs = false) /\
  (exists evs,
      run (reply Fake.full_env "p5" "Try our tool" false) scan_world
        = (Ok skipped, mkState scan_world evs []) /\
      existsb is_reply evs = false).
Proof.
  assert (Hreads : forall reddit,
             get_reddit Fake.service Fake.full_env = Ok (Some reddit) ->
             reads_show_own_comment Fake.service reddit "p5"
               scan_world scan_world).
  { intros reddit Hr. injection Hr as <-.
    exists answered_post, scan_world, (Fake.fishbig 40 15).
    repeat split; reflexivity. }
  destruct (reply_skips_when_already_replied Fake.service Fake.full_env _
              "p5" "Try our tool" false scan_world scan_world eq_refl
              (Hreads _ eq_refl)) as [Hfirst Hsecond].
  split; [exact Hfirst|]. apply Hsecond. exact (Hreads _ eq_refl).
Defined.

(** C2, as first stated, fails: in post p6 the account's comment sits behind
    a load-more placeholder, so the fully expanded forest holds it; the
    executor, which drops the placeholders, previews a reply in dry-run mode
    and submits a second comment in live mode. *)
Lemma reply_misses_comment_behind_placeholder :
  Fake.account scan_world = Some (Fake.fishbig 40 15) /\
  Fake.lookup "p6" (Fake.posts scan_world) = Some hidden_answer_post /\
  Forest.has_comment_by "fishbig"
    (Forest.expand_all (sub_comments hidden_answer_post)) = true /\
  (exists v,
      fst (run (reply Fake.full_env "p6" "Try our tool" true) scan_world)
        = Ok v /\
      get "status" v = Some (VStr "dry_run")) /\
  (exists v s',
      run (reply Fake.full_env "p6" "Try our tool" false) scan_world
        = (Ok v, s') /\
      get "status" v = Some (VStr "replied") /\
      existsb is_reply (log s') = true).
Proof.
  repeat split; try reflexivity.
  - eexists. split; reflexivity.
  - eexists _, _. repeat split; reflexivity.
Qed.

Lemma reply_dry_run_never_submits_witness :
  let argv := ["reddit_scanner.py"; "reply"; "p6"; "Try our tool"; "--live"] in
  (existsb is_reply
     (log (snd (run (reply Fake.full_env "p6" "Try our tool" true)
                  scan_world))) = false) /\
  In "--live" argv.
Proof.
  intros argv.
  destruct (reply_dry_run_never_submits Fake.service lower_ascii clock)
    as [Hdry [_ Hlive]].
  split.
  - exact (proj1 (Hdry Fake.full_env "p6" "Try our tool" scan_world)).
  - apply (Hlive Fake.full_env argv scan_world). left. reflexivity.
Defined.

Lemma unconfigured_returns_error_without_calls_witness :
  run (scan no_secret_env None None 25) scan_world
    = (Ok not_configured_scan, mkState scan_world [] []) /\
  run (reply no_secret_env "p5" "Try our tool" false) scan_world
    = (Ok not_configured, mkState scan_world [] []) /\
  run (warmup no_secret_env) scan_world
    = (Ok not_configured, mkState scan_world [] []) /\
  run (status no_secret_env) scan_world
    = (Ok not_configured, mkState scan_world [] []).
Proof.
  destruct (unconfigured_returns_error_without_calls Fake.service lower_ascii
              clock no_secret_env (or_intror eq_refl) scan_world)
    as [Hscan [Hreply [Hwarmup [Hstatus _]]]].
  split; [apply Hscan|]. split; [apply Hreply|].
  split; [exact Hwarmup | exact Hstatus].
Defined.

Lemma scan_sorted_by_recency_witness :
  let out :=
    outcome_list
      (fst (run (scan Fake.full_env (Some ["webdev"; "SaaS"]) None 25)
              scan_world)) in
  length out = 3%nat /\
  (forall i j x y tx ty,
      (i < j)%nat -> nth_error out i = Some x -> nth_error out j = Some y ->
      get "created_utc" x = Some (VInt tx) ->
      get "created_utc" y = Some (VInt ty) ->
      ty <= tx) /\
  (forall i j x y,
      nth_error out i = Some x -> nth_error out j = Some y ->
      has_key "created_utc" x = false ->
      has_key "created_utc" y = true ->
      (j < i)%nat).
Proof.
  intros out.
  assert (Hrun : run (scan Fake.full_env (Some ["webdev"; "SaaS"]) None 25)
                   scan_world
                 = (Ok (VList out),
                    snd (run (scan Fake.full_env (Some ["webdev"; "SaaS"])
                                None 25) scan_world)))
    by (vm_compute; reflexivity).
  assert (Hpos : forall name lim posts e post,
             In (ENew name lim (posts, e))
                (log (snd (run (scan Fake.full_env (Some ["webdev"; "SaaS"])
                                  None 25) scan_world))) ->
             In post posts -> 0 < sub_created_utc post).
  { intros name lim posts e post Hev Hpost. vm_compute in Hev.
    destruct Hev as [Hev | [Hev | []]]; injection Hev as _ _ <- _;
      repeat (destruct Hpost as [<- | Hpost]; [reflexivity|]);
      destruct Hpost. }
  destruct (scan_sorted_by_recency Fake.service lower_ascii clock _ _ _ _ _
              _ _ Hrun Hpos) as [Hsorted [Hlast _]].
  split; [reflexivity|]. split; [exact Hsorted | exact Hlast].
Defined.

Lemma status_total_and_readiness_witness :
  exists v,
    fst (run (status Fake.full_env) scan_world) = Ok v /\
    get "total_karma" v = Some (VInt 55) /\
    get "ready_for_action" v = Some (VBool false).
Proof.
  destruct (status_total_and_readiness Fake.service clock Fake.full_env _
              scan_world scan_world (Fake.fishbig 40 15) eq_refl eq_refl)
    as [v [Hv [_ [_ [Htotal [_ Hfalse]]]]]].
  exists v. split; [exact Hv|]. split; [exact Htotal|].
  apply Hfalse. reflexivity.
Defined.

Lemma operations_catch_request_exceptions_witness :
  (exists v,
      fst (run (reply Fake.full_env "missing" "Try our tool" false)
             scan_world) = Ok v /\
      forall ev e,
        In ev (log (snd (run (reply Fake.full_env "missing" "Try our tool"
                                false) scan_world))) ->
        failure_of ev = Some e -> v = VDict [("error", VStr e)]) /\
  (exists v code,
      fst (run (cli Fake.full_env ["reddit_scanner.py"; "status"])
             scan_world) = Ok (v, code)).
Proof.
  assert (Hinit : forall e, get_reddit Fake.service Fake.full_env <> Exn e)
    by (intros e H; vm_compute in H; discriminate).
  destruct (operations_catch_request_exceptions Fake.service lower_ascii
              clock Fake.full_env scan_world Hinit)
    as [_ [Hreply [_ [_ Hcli]]]].
  split; [apply Hreply | apply Hcli].
Defined.

(** C7, as first stated, fails: with both credentials set and a local PRAW
    configuration the constructor rejects, [get_reddit] raises before any
    [try] is entered, and each of the four operations lets the exception
    through: nothing is returned and no request is made. *)
Lemma constructor_exception_escapes :
  let e := "No section: 'nosuchsite'" in
  let bad := Fake.service_bad_site in
  get_reddit bad Fake.full_env = Exn e /\
  run (scan_opportunities bad lower_ascii clock Fake.full_env None None 25)
      scan_world = (Exn e, mkState scan_world [] []) /\
  run (reply_to_post bad Fake.full_env "p5" "Try our tool" true) scan_world
    = (Exn e, mkState scan_world [] []) /\
  run (warmup_actions bad clock Fake.full_env) scan_world
    = (Exn e, mkState scan_world [] []) /\
  run (check_status bad clock Fake.full_env) scan_world
    = (Exn e, mkState scan_world [] []).
Proof. repeat split; vm_compute; reflexivity. Qed.

Lemma scan_survives_subreddit_failure_witness :
  exists out s' answers,
    run (scan Fake.full_env (Some ["webdev"; "SaaS"]) None 25) scan_world
      = (Ok (VList out), s') /\
    log s' = map (fun a => ENew (fst a) 25 (snd a)) answers /\
    map fst answers = ["webdev"; "SaaS"] /\
    forall name posts e,
      In (name, (posts, Some e)) answers ->
      In (VDict [("error",
                  VStr ("Failed to scan r/" ++ name ++ ": " ++ e))]) out.
Proof.
  exact (scan_survives_subreddit_failure Fake.service lower_ascii clock
           Fake.full_env _ (Some ["webdev"; "SaaS"]) None 25 scan_world
           eq_refl).
Defined.

Lemma warmup_suggestion_by_karma_witness :
  exists v,
    fst (run (warmup Fake.full_env) scan_world) = Ok v /\
    get "karma" v = Some (VInt 55) /\
    get "suggestion" v
      = Some (VStr "Comment on these posts with genuine value to build karma").
Proof.
  destruct (warmup_suggestion_by_karma Fake.service clock Fake.full_env _
              scan_world scan_world scan_world (Fake.fishbig 40 15) []
              eq_refl eq_refl eq_refl) as [v [Hv [Hkarma [Hlow _]]]].
  exists v. split; [exact Hv|]. split; [exact Hkarma|].
  apply Hlow. reflexivity.
Defined.

(** C9, as first stated, fails: with karma 55 the suggestion is not the
    string "build karma via genuine comments", and with karma 200 it is not
    "ready for targeted replies". *)
Lemma warmup_suggestion_is_other_text :
  (exists v,
      fst (run (warmup Fake.full_env) scan_world) = Ok v /\
      get "karma" v = Some (VInt 55) /\
      get "suggestion" v <> Some (VStr "build karma via genuine comments")) /\
  (exists v,
      fst (run (warmup Fake.full_env) rich_world) = Ok v /\
      get "karma" v = Some (VInt 200) /\
      get "suggestion" v <> Some (VStr "ready for targeted replies")).
Proof.
  split; eexists; (split; [reflexivity|]); (split; [reflexivity|]);
    discriminate.
Qed.

Lemma scan_empty_list_is_default_witness :
  length (log (snd (run (scan Fake.full_env (Some []) None 25) scan_world)))
    = 8%nat.
Proof.
  destruct (scan_empty_list_is_default Fake.service lower_ascii clock
              Fake.full_env None None 25) as [_ [_ [_ [_ [_ [_ Hlog]]]]]].
  exact (Hlog _ scan_world eq_refl).
Defined.

(** C10, as first stated, fails: the default keyword list does not have
    eighteen entries. *)
Lemma pain_keywords_are_not_eighteen :
  length PAIN_KEYWORDS <> 18%nat.
Proof. discriminate. Qed.

End ConcreteRuns.

(** * Further properties of the script *)

(** ** The credential loader *)

(** X1.  The loader gives no handle exactly when the client id or the
    client secret is unset or empty: an empty variable counts as a missing
    one. *)
Theorem get_reddit_none_iff {W} (svc : Service W) (environ : Env) :
  get_reddit svc environ = Ok None <->
  (environ "REDDIT_CLIENT_ID" = None \/
   environ "REDDIT_CLIENT_ID" = Some EmptyString) \/
  (environ "REDDIT_CLIENT_SECRET" = None \/
   environ "REDDIT_CLIENT_SECRET" = Some EmptyString).
Proof.
  unfold get_reddit.
  destruct (environ "REDDIT_CLIENT_ID") as [[|a i]|];
    destruct (environ "REDDIT_CLIENT_SECRET") as [[|b x]|];
    cbn [truthy negb orb];
    try (split; [now auto | reflexivity]).
  cbv zeta. destruct (reddit_init svc _); split; intros H;
    try discriminate; destruct H as [[H|H]|[H|H]]; discriminate.
Qed.

(** X2.  A handle carries the id and the secret as they are in the
    environment.  It logs in exactly when username and password are both
    set and not empty, and then with those two; and its user agent names
    the username, or "fishbig" when the username is unset or empty. *)
Theorem get_reddit_handle {W} (svc : Service W) (environ : Env)
  (reddit : Reddit) :
  get_reddit svc environ = Ok (Some reddit) ->
  environ "REDDIT_CLIENT_ID" = Some (kw_client_id reddit) /\
  environ "REDDIT_CLIENT_SECRET" = Some (kw_client_secret reddit) /\
  (forall u p,
      kw_login reddit = Some (u, p) <->
      environ "REDDIT_USERNAME" = Some u /\ u <> EmptyString /\
      environ "REDDIT_PASSWORD" = Some p /\ p <> EmptyString) /\
  (kw_login reddit = None <->
   truthy (environ "REDDIT_USERNAME") = false \/
   truthy (environ "REDDIT_PASSWORD") = false) /\
  kw_user_agent reddit
    = ("market_research_assistant:v1.0 (by /u/"
         ++ str_or (environ "REDDIT_USERNAME") "fishbig" ++ ")")%string.
Proof.
  unfold get_reddit.
  destruct (environ "REDDIT_CLIENT_ID") as [[|a i]|];
    destruct (environ "REDDIT_CLIENT_SECRET") as [[|b x]|];
    cbn [truthy negb orb]; try discriminate.
  cbv zeta. destruct (reddit_init svc _); [discriminate|].
  intros [= <-]. cbn.
  split; [reflexivity|]. split; [reflexivity|].
  destruct (environ "REDDIT_USERNAME") as [[|c u']|];
    destruct (environ "REDDIT_PASSWORD") as [[|d p']|]; cbn;
    (split; [intros u p; split;
               [ intros H; try discriminate; injection H as <- <-;
                 repeat split; try reflexivity; discriminate
               | intros [Hu [Hnu [Hp Hnp]]]; try discriminate;
                 try (injection Hu as <-); try (injection Hp as <-);
                 try reflexivity; try (now contradict Hnu);
                 try (now contradict Hnp) ]
            |]);
    (split; [split; [intros H; try discriminate; auto
                    | intros [H|H]; try discriminate; reflexivity]
            | reflexivity]).
Qed.

Lemma get_reddit_handle_witness :
  exists reddit,
    get_reddit Fake.service Fake.full_env = Ok (Some reddit) /\
    kw_login reddit = Some ("fishbig", "pw") /\
    kw_user_agent reddit = "market_research_assistant:v1.0 (by /u/fishbig)".
Proof.
  eexists. split; [reflexivity|].
  destruct (get_reddit_handle Fake.service Fake.full_env _ eq_refl)
    as [_ [_ [Hlogin [_ Hagent]]]].
  split; [|exact Hagent].
  apply Hlogin. repeat split; try reflexivity; discriminate.
Defined.

(** ** The scan: what the output holds and in what order *)

Lemma take_len (n : nat) (s : string) :
  len (take n s) = Nat.min n (len s).
Proof.
  revert n; induction s as [|c s IH]; intros n; cbn [take len].
  - now rewrite Nat.min_0_r.
  - destruct (is_continuation c) eqn:Hc; cbn [len]; rewrite ?Hc.
    + apply IH.
    + destruct n as [|n]; [reflexivity|]. cbn [len]. rewrite Hc, IH.
      reflexivity.
Qed.

Lemma take_prefix (n : nat) (s : string) :
  exists rest, s = (take n s ++ rest)%string /\ at_boundary rest.
Proof.
  revert n; induction s as [|c s IH]; intros n; cbn [take].
  - now exists EmptyString.
  - destruct (is_continuation c) eqn:Hc.
    + destruct (IH n) as [rest [Hrest Hb]]. exists rest.
      split; [|exact Hb]. cbn [append]. now rewrite <- Hrest.
    + destruct n as [|n].
      * exists (String c s). split; [reflexivity | exact Hc].
      * destruct (IH n) as [rest [Hrest Hb]]. exists rest.
        split; [|exact Hb]. cbn [append]. now rewrite <- Hrest.
Qed.

Lemma take_all (n : nat) (s : string) :
  (len s <= n)%nat -> take n s = s.
Proof.
  revert n; induction s as [|c s IH]; intros n Hn; cbn [take len] in *;
    [reflexivity|].
  destruct (is_continuation c).
  - now rewrite IH.
  - destruct n as [|n]; [lia|]. rewrite IH; [reflexivity | lia].
Qed.

Lemma insert_desc_filter (k : Z) (x : pyval) (l : list pyval) :
  filter (fun y => sort_key y =? k) (insert_desc x l) =
  filter (fun y => sort_key y =? k) (x :: l).
Proof.
  induction l as [|y l IH]; [reflexivity|].
  cbn [insert_desc]. destruct (sort_key y <=? sort_key x) eqn:Hc;
    [reflexivity|].
  apply Z.leb_gt in Hc. cbn [filter] in *. rewrite IH.
  destruct (sort_key x =? k) eqn:Hx; destruct (sort_key y =? k) eqn:Hy;
    try reflexivity.
  apply Z.eqb_eq in Hx, Hy. lia.
Qed.

(** The sort is stable: the records of one key keep their order. *)
Lemma sort_desc_stable (k : Z) (l : list pyval) :
  filter (fun y => sort_key y =? k) (sort_desc l) =
  filter (fun y => sort_key y =? k) l.
Proof.
  induction l as [|x l IH]; [reflexivity|].
  cbn [sort_desc]. rewrite insert_desc_filter. cbn [filter].
  now rewrite IH.
Qed.

(** A list already in order is left as it is. *)
Lemma sort_desc_sorted_id (l : list pyval) :
  StronglySorted recent_first l -> sort_desc l = l.
Proof.
  induction 1 as [|x l Hs IH Hx]; [reflexivity|].
  cbn [sort_desc]. rewrite IH. destruct l as [|y l]; [reflexivity|].
  cbn [insert_desc]. apply Forall_inv in Hx. unfold recent_first in Hx.
  apply Z.leb_le in Hx. now rewrite Hx.
Qed.

Lemma same_key_sorted (k : Z) (l : list pyval) :
  Forall (fun x => sort_key x = k) l -> StronglySorted recent_first l.
Proof.
  induction 1 as [|x l Hx Hl IH]; constructor; [exact IH|].
  eapply Forall_impl; [|exact Hl]. unfold recent_first.
  intros y Hy. cbn in Hy. lia.
Qed.

Section ScanOutput.
Context {W : Type}.
Variable svc : Service W.
Variable lower : string -> string.
Variable rounded_age : Z -> Z -> pyval.

Local Abbreviation scan := (scan_opportunities svc lower rounded_age).
Local Abbreviation record := (post_record rounded_age).
Local Abbreviation records_of := (event_records lower rounded_age).

Lemma records_of_answers kws limit (answers : list (string * listing)) :
  flat_map (records_of kws) (map (answer_event limit) answers) =
  flat_map (answer_records lower rounded_age kws) answers.
Proof.
  induction answers as [|a l IH]; [reflexivity|].
  cbn [map flat_map]. now rewrite IH.
Qed.

(** A scan that returned a list, by its log: the output is the sorted
    concatenation of what the logged requests appended. *)
Lemma scan_output_of_log environ subreddits keywords limit (w : W) out s' :
  run (scan environ subreddits keywords limit) w = (Ok (VList out), s') ->
  out = sort_desc
          (flat_map (records_of (list_or keywords PAIN_KEYWORDS)) (log s')) /\
  Forall (fun ev => exists name g, ev = ENew name limit g) (log s').
Proof.
  intros Hrun.
  destruct (scan_returns_list svc lower rounded_age _ _ _ _ _ _ _ Hrun)
    as [reddit [answers [Hr [Ha [Hlog Hout]]]]].
  rewrite Hlog, records_of_answers. split; [exact Hout|].
  rewrite Forall_forall. intros ev Hev. apply in_map_iff in Hev.
  destruct Hev as [[n g] [<- _]]. now exists n, g.
Qed.

(** X3.  Every record of a scan's output is an inline error record or the
    record of a post some listing request yielded: it carries that post's
    id and title, and as body the first 800 characters (code points) of its
    text, cut between two characters (all of the text when it has no more
    than 800). *)
Theorem scan_records_come_from_posts :
  forall environ subreddits keywords limit (w : W) out s',
    run (scan environ subreddits keywords limit) w = (Ok (VList out), s') ->
    forall x, In x out ->
      (exists name e, x = scan_error_record name e) \/
      (exists name posts e post body,
          In (ENew name limit (posts, e)) (log s') /\ In post posts /\
          get "id" x = Some (VStr (sub_id post)) /\
          get "title" x = Some (VStr (sub_title post)) /\
          get "subreddit" x = Some (VStr name) /\
          get "body" x = Some (VStr body) /\
          len body = Nat.min 800 (len (str_or (sub_selftext post) "")) /\
          (exists rest,
              str_or (sub_selftext post) "" = (body ++ rest)%string /\
              at_boundary rest) /\
          ((len (str_or (sub_selftext post) "") <= 800)%nat ->
           body = str_or (sub_selftext post) "")).
Proof.
  intros environ subreddits keywords limit w out s' Hrun x Hx.
  destruct (scan_returns_list svc lower rounded_age _ _ _ _ _ _ _ Hrun)
    as [reddit [answers [Hr [Ha [Hlog Hout]]]]].
  rewrite Hout, sort_desc_In, in_flat_map in Hx.
  destruct Hx as [[n [posts e]] [Hin Hx]]. unfold answer_records in Hx.
  apply listing_records_In in Hx. cbn [fst snd] in Hx.
  destruct Hx as [[p [Hp [_ Hx]]] | [err [_ Hx]]].
  - right. exists n, posts, e, p, (take 800 (str_or (sub_selftext p) "")).
    split.
    { rewrite Hlog. apply in_map_iff. now exists (n, (posts, e)). }
    split; [exact Hp|]. rewrite Hx.
    repeat (split; [reflexivity|]).
    split; [apply take_len|]. split; [apply take_prefix | apply take_all].
  - left. now exists n, err.
Qed.

(** X4.  Sorting loses and adds nothing: the output of a scan is a
    rearrangement of the records the listing requests appended, one per
    matching post and one per listing that raised, duplicates included. *)
Theorem scan_output_is_rearrangement :
  forall environ subreddits keywords limit (w : W) out s',
    run (scan environ subreddits keywords limit) w = (Ok (VList out), s') ->
    let appended :=
      flat_map (records_of (list_or keywords PAIN_KEYWORDS)) (log s') in
    Permutation out appended /\ length out = length appended.
Proof.
  intros environ subreddits keywords limit w out s' Hrun appended.
  destruct (scan_output_of_log _ _ _ _ _ _ _ Hrun) as [Hout _].
  fold appended in Hout. rewrite Hout. split.
  - apply sort_desc_perm.
  - apply Permutation_length, sort_desc_perm.
Qed.

(** X5.  The sort is stable: the records of a scan's output that share a
    sort key stand in the order in which they were appended, so equally
    dated posts and the inline error records (key 0) keep the order of the
    subreddit list. *)
Theorem scan_order_is_stable :
  forall environ subreddits keywords limit (w : W) out s',
    run (scan environ subreddits keywords limit) w = (Ok (VList out), s') ->
    forall k,
      filter (fun x => sort_key x =? k) out =
      filter (fun x => sort_key x =? k)
        (flat_map (records_of (list_or keywords PAIN_KEYWORDS)) (log s')).
Proof.
  intros environ subreddits keywords limit w out s' Hrun k.
  destruct (scan_output_of_log _ _ _ _ _ _ _ Hrun) as [Hout _].
  rewrite Hout. apply sort_desc_stable.
Qed.

(** X6.  When no listing yields a matching post, the output is exactly the
    inline error records of the listings that raised, in request order. *)
Theorem scan_without_matches_lists_errors :
  forall environ subreddits keywords limit (w : W) out s',
    run (scan environ subreddits keywords limit) w = (Ok (VList out), s') ->
    (forall name lim posts e post,
        In (ENew name lim (posts, e)) (log s') -> In post posts ->
        matched_keywords lower (list_or keywords PAIN_KEYWORDS) post = []) ->
    out = flat_map event_errors (log s').
Proof.
  intros environ subreddits keywords limit w out s' Hrun Hnone.
  destruct (scan_output_of_log _ _ _ _ _ _ _ Hrun) as [Hout Hnew].
  set (kws := list_or keywords PAIN_KEYWORDS) in *.
  assert (Heq : flat_map (records_of kws) (log s')
                = flat_map event_errors (log s')).
  { clear Hout Hrun. revert Hnone Hnew.
    generalize (log s') as l. intros l.
    induction l as [|ev l IH]; intros Hnone Hnew; [reflexivity|].
    cbn [flat_map]. rewrite IH.
    2:{ intros name lim posts e post Hev Hpost.
        apply (Hnone name lim posts e post); [now right | exact Hpost]. }
    2:{ now apply Forall_inv_tail in Hnew. }
    f_equal. apply Forall_inv in Hnew. destruct Hnew as [n [[posts e] ->]].
    cbn [event_records event_errors]. unfold listing_records. cbn [fst snd].
    replace (flat_map (post_records lower rounded_age kws n) posts)
      with (@nil pyval); [reflexivity|].
    symmetry. assert (Hp : forall p, In p posts ->
                              matched_keywords lower kws p = []).
    { intros p Hp. eapply (Hnone n limit posts e p); [now left | exact Hp]. }
    clear -Hp. induction posts as [|p posts IHp]; [reflexivity|].
    cbn [flat_map]. unfold post_records at 1.
    rewrite (Hp p (or_introl eq_refl)). apply IHp.
    intros q Hq. apply Hp. now right. }
  rewrite Hout, Heq. apply sort_desc_sorted_id, (same_key_sorted 0).
  rewrite Forall_forall. intros x Hx. apply in_flat_map in Hx.
  destruct Hx as [ev [_ Hx]].
  destruct ev as [n l [ps [e|]] | | | |]; cbn in Hx; try contradiction.
  destruct Hx as [<-|[]]. reflexivity.
Qed.

(** X7.  The empty string is a substring of every text: when the keyword
    list in force holds it, every post a listing request yields is in the
    output. *)
Theorem scan_empty_keyword_matches_all :
  forall environ subreddits keywords limit (w : W) out s',
    run (scan environ subreddits keywords limit) w = (Ok (VList out), s') ->
    In EmptyString (list_or keywords PAIN_KEYWORDS) ->
    forall name lim posts e post,
      In (ENew name lim (posts, e)) (log s') -> In post posts ->
      exists matched,
        In EmptyString matched /\ In (record name post matched) out.
Proof.
  intros environ subreddits keywords limit w out s' Hrun Hempty
    name lim posts e post Hev Hpost.
  destruct (scan_returns_list svc lower rounded_age _ _ _ _ _ _ _ Hrun)
    as [reddit [answers [Hr [Ha [Hlog Hout]]]]].
  set (kws := list_or keywords PAIN_KEYWORDS) in *.
  assert (Hm : In EmptyString (matched_keywords lower kws post)).
  { apply matched_keywords_In. split; [exact Hempty|].
    exists EmptyString, (post_text lower post). reflexivity. }
  exists (matched_keywords lower kws post). split; [exact Hm|].
  rewrite Hout, sort_desc_In, in_flat_map.
  rewrite Hlog in Hev. apply in_map_iff in Hev.
  destruct Hev as [[n g] [Heq Hin]]. unfold answer_event in Heq.
  simpl in Heq. injection Heq as -> _ ->.
  exists (name, (posts, e)). split; [exact Hin|].
  unfold answer_records. apply listing_records_In. left.
  exists post. cbn [fst snd]. split; [exact Hpost|]. split; [|reflexivity].
  intros Hnil. rewrite Hnil in Hm. contradiction.
Qed.

(** X8.  What a scan gives follows what [get_reddit] gave: a list exactly
    when it returned a handle, the configuration error object exactly when
    it returned none (the client id or the client secret unset or empty),
    and the constructor's exception, with no request made, exactly when it
    raised. *)
Theorem scan_outcome_follows_get_reddit :
  forall environ subreddits keywords limit (w : W),
    ((exists out,
         fst (run (scan environ subreddits keywords limit) w)
           = Ok (VList out)) <->
     exists reddit, get_reddit svc environ = Ok (Some reddit)) /\
    (fst (run (scan environ subreddits keywords limit) w)
       = Ok not_configured_scan <->
     truthy (environ "REDDIT_CLIENT_ID") = false \/
     truthy (environ "REDDIT_CLIENT_SECRET") = false) /\
    (forall e,
        run (scan environ subreddits keywords limit) w
          = (Exn e, mkState w [] []) <->
        get_reddit svc environ = Exn e) /\
    (forall e,
        fst (run (scan environ subreddits keywords limit) w) = Exn e ->
        get_reddit svc environ = Exn e).
Proof.
  intros environ subreddits keywords limit w.
  assert (Hnone : get_reddit svc environ = Ok None <->
                  truthy (environ "REDDIT_CLIENT_ID") = false \/
                  truthy (environ "REDDIT_CLIENT_SECRET") = false).
  { unfold get_reddit.
    destruct (truthy (environ "REDDIT_CLIENT_ID"));
      destruct (truthy (environ "REDDIT_CLIENT_SECRET"));
      cbn [negb orb]; try (split; [now auto | reflexivity]).
    cbv zeta. destruct (reddit_init svc _); split; intros H;
      try discriminate; destruct H; discriminate. }
  rewrite <- Hnone. clear Hnone.
  destruct (get_reddit svc environ) as [[reddit|]|e0] eqn:Hr.
  - rewrite (scan_run svc lower rounded_age _ reddit _ _ _ _ Hr).
    destruct (scan_answers svc reddit limit
                (list_or subreddits DEFAULT_SUBS) w) as [answers w'].
    cbn [fst]. split; [|split; [|split]].
    + split; intros _; [now exists reddit | eexists; reflexivity].
    + split; discriminate.
    + intros e. split; discriminate.
    + intros e. discriminate.
  - unfold run, scan_opportunities. enter_with Hr. cbn [fst ret].
    split; [|split; [|split]].
    + split; [intros [out H] | intros [reddit H]]; discriminate.
    + split; reflexivity.
    + intros e. split; discriminate.
    + intros e. discriminate.
  - destruct (constructor_raises svc lower rounded_age environ e0 w Hr)
      as [Hscan _].
    rewrite Hscan. cbn [fst]. split; [|split; [|split]].
    + split; [intros [out H] | intros [reddit H]]; discriminate.
    + split; discriminate.
    + intros e. split; intros [= ->]; reflexivity.
    + intros e [= ->]. reflexivity.
Qed.

End ScanOutput.

(** ** The reply executor: when it skips, previews and submits *)

Section ReplyPaths.
Context {W : Type}.
Variable svc : Service W.

Local Abbreviation reply := (reply_to_post svc).

(** The paths of a configured [reply_to_post], each with the answers that
    select it, the result and the final state. *)
Lemma reply_paths environ reddit post_id reply_text dry_run (w : W) :
  get_reddit svc environ = Ok (Some reddit) ->
  let r := run (reply environ post_id reply_text dry_run) w in
  (exists e w1,
      submission_fetch svc reddit post_id w = (Exn e, w1) /\
      r = (Ok (VDict [("error", VStr e)]),
           mkState w1 [EFetch post_id (Exn e)] [])) \/
  (exists s w1,
      submission_fetch svc reddit post_id w = (Ok s, w1) /\
      ((exists e w2,
           user_me svc reddit w1 = (Exn e, w2) /\
           r = (Ok (VDict [("error", VStr e)]),
                mkState w2 [EFetch post_id (Ok s); EMe (Exn e)] [])) \/
       (exists me w2,
           user_me svc reddit w1 = (Ok me, w2) /\
           let reads := [EFetch post_id (Ok s); EMe (Ok me)] in
           let own :=
             match me with
             | Some m =>
                 Forest.has_comment_by (me_name m)
                   (Forest.replace_more_0 (sub_comments s))
             | None => false
             end in
           ((own = true /\ (exists m, me = Some m) /\
             r = (Ok skipped, mkState w2 reads [])) \/
            (own = false /\ dry_run = true /\
             r = (Ok (VDict
                        [ ("status", VStr "dry_run");
                          ("post_title", VStr (sub_title s));
                          ("post_url",
                           VStr ("https://reddit.com" ++ sub_permalink s));
                          ("would_reply", VStr (take 300 reply_text)) ]),
                  mkState w2 reads [])) \/
            (own = false /\ dry_run = false /\
             exists res w3,
               submission_reply svc reddit post_id reply_text w2
                 = (res, w3) /\
               r = (Ok match res with
                       | Ok c =>
                           VDict
                             [ ("status", VStr "replied");
                               ("post_id", VStr post_id);
                               ("comment_id", VStr (com_id c));
                               ("comment_url",
                                VStr ("https://reddit.com"
                                        ++ com_permalink c)) ]
                       | Exn e => VDict [("error", VStr e)]
                       end,
                    mkState w3
                      (reads ++ [EReply post_id reply_text res]) [])))))).
Proof.
  intros Hr r. subst r. unfold reply_to_post. enter_with Hr.
  unfold_eff. unfold lift.
  destruct (submission_fetch svc reddit post_id w) as [[s|e1] w1];
    cbn [remote log local_list fst snd].
  2:{ left. now exists e1, w1. }
  right. exists s, w1. split; [reflexivity|].
  destruct (user_me svc reddit w1) as [[me|e2] w2];
    cbn [remote log local_list fst snd].
  2:{ left. now exists e2, w2. }
  right. exists me, w2. split; [reflexivity|]. cbv zeta.
  destruct me as [m|].
  - rewrite already_replied_check.
    destruct (Forest.has_comment_by (me_name m)
                (Forest.replace_more_0 (sub_comments s))).
    + left. split; [reflexivity|]. split; [now exists m | reflexivity].
    + right. destruct dry_run.
      * left. repeat split.
      * right. cbn [remote log local_list fst snd].
        destruct (submission_reply svc reddit post_id reply_text w2)
          as [[c|e3] w3]; cbn [remote log local_list fst snd];
          repeat split; eexists _, _; split; reflexivity.
  - right. destruct dry_run.
    + left. repeat split.
    + right. cbn [remote log local_list fst snd].
      destruct (submission_reply svc reddit post_id reply_text w2)
        as [[c|e3] w3]; cbn [remote log local_list fst snd];
        repeat split; eexists _, _; split; reflexivity.
Qed.

(** X9.  The executor answers [skipped] only when it is configured, the
    post fetch and the profile lookup succeeded, and the loaded forest,
    placeholders removed, holds a comment by the account; on a read-only
    handle, whose profile lookup gives no account, it never skips. *)
Theorem reply_skips_only_when_comment_seen :
  forall environ post_id reply_text dry_run (w : W) v s',
    run (reply environ post_id reply_text dry_run) w = (Ok v, s') ->
    get "status" v = Some (VStr "skipped") ->
    exists reddit,
      get_reddit svc environ = Ok (Some reddit) /\
      reads_show_own_comment svc reddit post_id w (remote s').
Proof.
  intros environ post_id reply_text dry_run w v s' Hrun Hst.
  destruct (get_reddit svc environ) as [[reddit|]|e0] eqn:Hr.
  3:{ unfold run, reply_to_post in Hrun. rewrite Hr in Hrun.
      discriminate. }
  2:{ unfold run, reply_to_post in Hrun. rewrite Hr in Hrun.
      injection Hrun as <- <-. discriminate. }
  exists reddit. split; [reflexivity|].
  pose proof (reply_paths environ reddit post_id reply_text dry_run w Hr)
    as H. cbv zeta in H. rewrite Hrun in H.
  destruct H as [[e [w1 [_ H]]] | [s [w1 [Hf H]]]].
  { injection H as -> _. discriminate. }
  destruct H as [[e [w2 [_ H]]] | [me [w2 [Hme H]]]].
  { injection H as -> _. discriminate. }
  destruct H as [[Hown [[m ->] H]] | [[_ [_ H]] | [_ [_ [res [w3 [_ H]]]]]]].
  - injection H as _ ->. cbn [remote]. now exists s, w1, m.
  - injection H as -> _. discriminate.
  - injection H as -> _. destruct res; discriminate.
Qed.

(** X10.  An invocation submits at most one comment, and only as the last
    of three requests: after the post fetch and the profile lookup both
    succeeded, with the dry-run flag cleared and no comment of the account
    found in the loaded forest.  The submission goes to the given post id
    with the whole reply text. *)
Theorem reply_submits_once_after_checks :
  forall environ post_id reply_text dry_run (w : W) pid text res,
    In (EReply pid text res)
       (log (snd (run (reply environ post_id reply_text dry_run) w))) ->
    dry_run = false /\ pid = post_id /\ text = reply_text /\
    exists s me,
      log (snd (run (reply environ post_id reply_text dry_run) w))
        = [EFetch post_id (Ok s); EMe (Ok me); EReply post_id reply_text res] /\
      match me with
      | Some m =>
          Forest.has_comment_by (me_name m)
            (Forest.replace_more_0 (sub_comments s)) = false
      | None => True
      end.
Proof.
  intros environ post_id reply_text dry_run w pid text res Hin.
  destruct (get_reddit svc environ) as [[reddit|]|e0] eqn:Hr.
  2,3: unfold run, reply_to_post in Hin; rewrite Hr in Hin; now destruct Hin.
  pose proof (reply_paths environ reddit post_id reply_text dry_run w Hr)
    as H. cbv zeta in H.
  destruct H as [[e [w1 [_ H]]] | [s [w1 [Hf H]]]].
  { rewrite H in Hin. destruct Hin as [Hin|[]]. discriminate. }
  destruct H as [[e [w2 [_ H]]] | [me [w2 [Hme H]]]].
  { rewrite H in Hin. destruct Hin as [Hin|[Hin|[]]]; discriminate. }
  destruct H as [[_ [_ H]] | [[_ [_ H]] | [Hown [Hdry [r3 [w3 [_ H]]]]]]].
  1,2: rewrite H in Hin; destruct Hin as [Hin|[Hin|[]]]; discriminate.
  rewrite H in *. cbn [snd log app] in *.
  destruct Hin as [Hin|[Hin|[Hin|[]]]]; try discriminate.
  injection Hin as <- <- <-. repeat (split; [reflexivity || assumption|]).
  exists s, me. split; [reflexivity|].
  destruct me; [exact Hown | exact I].
Qed.

(** X11.  On a post the account is not seen to have answered (both reads
    succeed and no comment of the account is in the loaded forest, or the
    handle is read-only), a dry run returns the preview: the post's title
    and URL and the first 300 characters (code points) of the reply text,
    cut between two characters, after the two reads alone.  A live run submits; it returns [replied] with the new
    comment's id and URL when the submission succeeds, and the error
    object when it raises. *)
Theorem reply_on_unanswered_post :
  forall environ reddit post_id reply_text (w w1 w2 : W) s me,
    get_reddit svc environ = Ok (Some reddit) ->
    submission_fetch svc reddit post_id w = (Ok s, w1) ->
    user_me svc reddit w1 = (Ok me, w2) ->
    match me with
    | Some m =>
        Forest.has_comment_by (me_name m)
          (Forest.replace_more_0 (sub_comments s)) = false
    | None => True
    end ->
    let reads := [EFetch post_id (Ok s); EMe (Ok me)] in
    (exists preview,
        run (reply environ post_id reply_text true) w
          = (Ok (VDict
                   [ ("status", VStr "dry_run");
                     ("post_title", VStr (sub_title s));
                     ("post_url",
                      VStr ("https://reddit.com" ++ sub_permalink s));
                     ("would_reply", VStr preview) ]),
             mkState w2 reads []) /\
        len preview = Nat.min 300 (len reply_text) /\
        (exists rest,
            reply_text = (preview ++ rest)%string /\ at_boundary rest) /\
        ((len reply_text <= 300)%nat -> preview = reply_text)) /\
    (forall c w3,
        submission_reply svc reddit post_id reply_text w2 = (Ok c, w3) ->
        run (reply environ post_id reply_text false) w
          = (Ok (VDict
                   [ ("status", VStr "replied");
                     ("post_id", VStr post_id);
                     ("comment_id", VStr (com_id c));
                     ("comment_url",
                      VStr ("https://reddit.com" ++ com_permalink c)) ]),
             mkState w3
               (reads ++ [EReply post_id reply_text (Ok c)]) [])) /\
    (forall e w3,
        submission_reply svc reddit post_id reply_text w2 = (Exn e, w3) ->
        run (reply environ post_id reply_text false) w
          = (Ok (VDict [("error", VStr e)]),
             mkState w3
               (reads ++ [EReply post_id reply_text (Exn e)]) [])).
Proof.
  intros environ reddit post_id reply_text w w1 w2 s me Hr Hf Hme Hown reads.
  assert (Hrun : forall dry_run,
             run (reply environ post_id reply_text dry_run) w =
             if dry_run
             then (Ok (VDict
                         [ ("status", VStr "dry_run");
                           ("post_title", VStr (sub_title s));
                           ("post_url",
                            VStr ("https://reddit.com" ++ sub_permalink s));
                           ("would_reply", VStr (take 300 reply_text)) ]),
                   mkState w2 reads [])
             else
               let (res, w3) :=
                 submission_reply svc reddit post_id reply_text w2 in
               (Ok match res with
                   | Ok c =>
                       VDict
                         [ ("status", VStr "replied");
                           ("post_id", VStr post_id);
                           ("comment_id", VStr (com_id c));
                           ("comment_url",
                            VStr ("https://reddit.com" ++ com_permalink c)) ]
                   | Exn e => VDict [("error", VStr e)]
                   end,
                mkState w3 (reads ++ [EReply post_id reply_text res]) [])).
  { intros dry_run. unfold reply_to_post. enter_with Hr.
    unfold_eff. unfold lift. rewrite Hf.
    cbn [remote log local_list fst snd]. rewrite Hme.
    cbn [remote log local_list fst snd].
    destruct me as [m|]; [rewrite already_replied_check, Hown|];
      (destruct dry_run; [reflexivity|]);
      cbn [remote log local_list fst snd];
      destruct (submission_reply svc reddit post_id reply_text w2)
        as [[c|e] w3]; reflexivity. }
  split; [|split].
  - exists (take 300 reply_text). split; [apply (Hrun true)|].
    split; [apply take_len|]. split; [apply take_prefix | apply take_all].
  - intros c w3 Hs. rewrite (Hrun false), Hs. reflexivity.
  - intros e w3 Hs. rewrite (Hrun false), Hs. reflexivity.
Qed.

End ReplyPaths.

(** ** The warmup runner *)

Section WarmupRuns.
Context {W : Type}.
Variable svc : Service W.
Variable rounded_age : Z -> Z -> pyval.

Local Abbreviation warmup := (warmup_actions svc rounded_age).

(** X12.  When the profile lookup and the trending listing succeed, the
    warmup reports status "ok" and, as [hot_posts_browsed], the number of
    posts the listing yielded.  On a read-only handle, whose lookup gives
    no account, it still succeeds: the username is "unknown", karma and
    account age are 0 and the suggestion is the one for low karma. *)
Theorem warmup_report :
  forall environ reddit (w w1 w2 : W) me posts,
    get_reddit svc environ = Ok (Some reddit) ->
    user_me svc reddit w = (Ok me, w1) ->
    subreddit_hot svc reddit "all" 5 w1 = ((posts, None), w2) ->
    exists v,
      run (warmup environ) w
        = (Ok v,
           mkState w2 [EMe (Ok me); EHot "all" 5 (posts, None)]
             (map hot_record posts)) /\
      get "status" v = Some (VStr "ok") /\
      get "hot_posts_browsed" v = Some (VInt (Z.of_nat (length posts))) /\
      (forall m, me = Some m ->
                 get "username" v = Some (VStr (me_name m)) /\
                 get "account_age_days" v
                   = Some (rounded_age 86400 (me_created_utc m))) /\
      (me = None ->
       get "username" v = Some (VStr "unknown") /\
       get "karma" v = Some (VInt 0) /\
       get "account_age_days" v = Some (VInt 0) /\
       get "suggestion" v
         = Some (VStr "Comment on these posts with genuine value to build karma")).
Proof.
  intros environ reddit w w1 w2 me posts Hr Hme Hhot.
  unfold warmup_actions. enter_with Hr. unfold_eff. rewrite Hme.
  cbn [remote log local_list fst snd]. rewrite Hhot.
  cbn [remote log local_list fst snd]. rewrite hot_posts_run.
  cbn [remote log local_list fst snd app].
  eexists. split; [reflexivity|]. cbn.
  split; [reflexivity|]. split; [now rewrite length_map|].
  split.
  - intros m ->. split; reflexivity.
  - intros ->. repeat split; reflexivity.
Qed.

(** X13.  The warmup only reads: it makes at most two requests, the
    profile lookup and then the hot listing of "all" with limit 5, and the
    listing is requested only after the lookup returned. *)
Theorem warmup_only_reads :
  forall environ (w : W),
    let evs := log (snd (run (warmup environ) w)) in
    evs = [] \/
    (exists e, evs = [EMe (Exn e)]) \/
    (exists me g, evs = [EMe (Ok me); EHot "all" 5 g]).
Proof.
  intros environ w. cbv zeta. unfold warmup_actions.
  destruct (get_reddit svc environ) as [[reddit|]|e0] eqn:Hr;
    [|now left|now left].
  right. rewrite ?bind_lift_ok. cbv beta iota. unfold_eff.
  destruct (user_me svc reddit w) as [[me|e1] w1];
    cbn [remote log local_list fst snd].
  2:{ left. now exists e1. }
  right. exists me.
  destruct (subreddit_hot svc reddit "all" 5 w1) as [[posts oe] w2];
    cbn [remote log local_list fst snd].
  rewrite hot_posts_run. cbn [remote log local_list fst snd].
  exists (posts, oe). now destruct oe.
Qed.

End WarmupRuns.

(** ** The command line *)

Lemma split_nonempty (sep : ascii) (s : string) : split sep s <> [].
Proof.
  destruct s as [|c s]; cbn [split]; [discriminate|].
  destruct (Ascii.eqb c sep); [discriminate|].
  destruct (split sep s); discriminate.
Qed.

Lemma join_split (sep : ascii) (s : string) :
  join (String sep EmptyString) (split sep s) = s.
Proof.
  induction s as [|c s IH]; [reflexivity|].
  cbn [split]. pose proof (split_nonempty sep s) as Hne.
  destruct (Ascii.eqb_spec c sep) as [->|Hc].
  - cbn [join]. destruct (split sep s) as [|x l]; [now contradict Hne|].
    rewrite IH. reflexivity.
  - destruct (split sep s) as [|x l]; [now contradict Hne|].
    cbn [join append] in *. now rewrite IH.
Qed.

Lemma split_free_of (sep : ascii) (s : string) :
  Forall (free_of sep) (split sep s).
Proof.
  induction s as [|c s IH]; [repeat constructor|].
  cbn [split]. destruct (Ascii.eqb_spec c sep) as [->|Hc].
  - constructor; [exact I | exact IH].
  - destruct (split sep s) as [|x l]; [repeat constructor; assumption|].
    constructor.
    + split; [exact Hc | now apply Forall_inv in IH].
    + now apply Forall_inv_tail in IH.
Qed.

(** X14.  Without a [--subs=] argument the dispatcher passes no subreddit
    list, so the defaults are scanned.  With one or more, the last one
    wins: its value is cut at the commas into a list that is never empty
    (so it always replaces the defaults, even when the value is empty),
    whose names hold no comma and, joined by commas, give the value
    back. *)
Theorem parse_subs_reads_last_argument :
  (forall args,
      (forall a, In a args -> startswith "--subs=" a = false) ->
      parse_subs args = None) /\
  (forall before value after,
      (forall a, In a after -> startswith "--subs=" a = false) ->
      exists names,
        parse_subs (before ++ ("--subs=" ++ value)%string :: after)
          = Some names /\
        names = split "," value /\
        list_or (Some names) DEFAULT_SUBS = names /\
        join "," names = value /\
        Forall (free_of ",") names).
Proof.
  assert (Hkeep : forall args acc,
             (forall a, In a args -> startswith "--subs=" a = false) ->
             fold_left
               (fun subs arg =>
                  if startswith "--subs=" arg
                  then match after_first "=" arg with
                       | Some v => Some (split "," v)
                       | None => subs
                       end
                  else subs) args acc = acc).
  { induction args as [|a args IH]; intros acc Hno; [reflexivity|].
    cbn [fold_left]. rewrite (Hno a (or_introl eq_refl)).
    apply IH. intros b Hb. apply Hno. now right. }
  split.
  - intros args Hno. unfold parse_subs. now apply Hkeep.
  - intros before value after Hno. exists (split "," value).
    split; [|split; [reflexivity|split; [|split]]].
    + unfold parse_subs. rewrite fold_left_app. cbn [fold_left].
      assert (Hs : startswith "--subs=" ("--subs=" ++ value)%string = true).
      { apply prefix_iff. now exists value. }
      rewrite Hs. cbn [append after_first Ascii.eqb Bool.eqb].
      now apply Hkeep.
    + pose proof (split_nonempty "," value) as Hne.
      destruct (split "," value); [now contradict Hne | reflexivity].
    + apply join_split.
    + apply split_free_of.
Qed.

Section Dispatcher.
Context {W : Type}.
Variable svc : Service W.
Variable lower : string -> string.
Variable rounded_age : Z -> Z -> pyval.

Local Abbreviation cli := (main svc lower rounded_age).

(** X15.  On a command line that does not name scan, warmup, status, or
    reply with its two arguments, the dispatcher prints an error object,
    exits with status 1 and makes no request.  On one that does, it first
    builds the client: if the constructor raises, the exception leaves the
    program uncaught, with nothing printed and no request made; otherwise
    it prints a document and exits with status 0, whatever the operation
    returned (its errors are in the document). *)
Theorem main_exit_status :
  forall environ argv (w : W),
    (recognized argv = false ->
     exists msg,
       run (cli environ argv) w
         = (Ok (VDict [("error", VStr msg)], 1), mkState w [] [])) /\
    (recognized argv = true ->
     forall e,
       get_reddit svc environ = Exn e ->
       run (cli environ argv) w = (Exn e, mkState w [] [])) /\
    (recognized argv = true ->
     (forall e, get_reddit svc environ <> Exn e) ->
     exists v s', run (cli environ argv) w = (Ok (v, 0), s')).
Proof.
  intros environ argv w. unfold main.
  assert (Hprint : forall c : Eff.M W pyval,
             (forall e, get_reddit svc environ = Exn e ->
                        run c w = (Exn e, mkState w [] [])) ->
             ((forall e, get_reddit svc environ <> Exn e) ->
              exists v, fst (run c w) = Ok v) ->
             (true = false ->
              exists msg,
                run (result <- c ;; ret (result, 0)) w
                  = (Ok (VDict [("error", VStr msg)], 1),
                     mkState w [] [])) /\
             (true = true ->
              forall e,
                get_reddit svc environ = Exn e ->
                run (result <- c ;; ret (result, 0)) w
                  = (Exn e, mkState w [] [])) /\
             (true = true ->
              (forall e, get_reddit svc environ <> Exn e) ->
              exists v s',
                run (result <- c ;; ret (result, 0)) w = (Ok (v, 0), s'))).
  { intros c Hraise Hok. rewrite run_then_print.
    split; [discriminate|]. split.
    - intros _ e He. now rewrite (Hraise e He).
    - intros _ Hinit. destruct (Hok Hinit) as [v Hv]. rewrite Hv.
      now eexists _, _. }
  assert (Husage : forall msg,
             (false = false ->
              exists msg',
                run (ret (VDict [("error", VStr msg)], 1)) w
                  = (Ok (VDict [("error", VStr msg')], 1),
                     mkState w [] [])) /\
             (false = true ->
              forall e,
                get_reddit svc environ = Exn e ->
                run (ret (VDict [("error", VStr msg)], 1)) w
                  = (Exn e, mkState w [] [])) /\
             (false = true ->
              (forall e, get_reddit svc environ <> Exn e) ->
              exists v s',
                run (ret (VDict [("error", VStr msg)], 1)) w
                  = (Ok (v, 0), s'))).
  { intros msg. split; [|split; discriminate]. intros _. now exists msg. }
  destruct argv as [|prog [|cmd rest]]; [apply Husage | apply Husage |].
  cbn [recognized].
  destruct (String.eqb_spec cmd "scan") as [->|Hscan].
  { cbn. apply Hprint.
    - intros e He.
      apply (constructor_raises svc lower rounded_age environ e w He).
    - intros Hinit.
      destruct (scan_never_replies svc lower rounded_age environ
                  (parse_subs rest) None 25 w)
        as [_ [[e [He _]] | [v [Hv _]]]]; [now destruct (Hinit e)|].
      now exists v. }
  destruct (String.eqb_spec cmd "reply") as [->|Hreply].
  { destruct rest as [|post_id [|reply_text rest]];
      [apply Husage | apply Husage |].
    cbn. apply Hprint.
    - intros e He.
      apply (constructor_raises svc lower rounded_age environ e w He).
    - intros Hinit.
      destruct (reply_cases svc lower rounded_age environ post_id
                  reply_text
                  (negb (mem "--live" (prog :: "reply" :: post_id
                                         :: reply_text :: rest))) w)
        as [[e [He _]] | [v [Hv _]]]; [now destruct (Hinit e)|].
      now exists v. }
  destruct (String.eqb_spec cmd "warmup") as [->|Hwarmup].
  { cbn. apply Hprint.
    - intros e He.
      apply (constructor_raises svc lower rounded_age environ e w He).
    - intros Hinit.
      destruct (warmup_cases svc lower rounded_age environ w)
        as [[e [He _]] | [v [Hv _]]]; [now destruct (Hinit e)|].
      now exists v. }
  destruct (String.eqb_spec cmd "status") as [->|Hstatus].
  { cbn. apply Hprint.
    - intros e He.
      apply (constructor_raises svc lower rounded_age environ e w He).
    - intros Hinit.
      destruct (status_cases svc lower rounded_age environ w)
        as [[e [He _]] | [v [Hv _]]]; [now destruct (Hinit e)|].
      now exists v. }
  cbn. apply Husage.
Qed.

End Dispatcher.

(** ** The further properties on concrete runs *)

Section FurtherConcreteRuns.
Import Examples.

Lemma scan_records_come_from_posts_witness :
  let r := run (scan Fake.full_env (Some ["SaaS"]) None 25) scan_world in
  let x := hd VNone (outcome_list (fst r)) in
  (exists name e, x = scan_error_record name e) \/
  (exists name posts e post body,
      In (ENew name 25 (posts, e)) (log (snd r)) /\ In post posts /\
      get "id" x = Some (VStr (sub_id post)) /\
      get "title" x = Some (VStr (sub_title post)) /\
      get "subreddit" x = Some (VStr name) /\
      get "body" x = Some (VStr body) /\
      len body = Nat.min 800 (len (str_or (sub_selftext post) "")) /\
      (exists rest,
          str_or (sub_selftext post) "" = (body ++ rest)%string /\
          at_boundary rest) /\
      ((len (str_or (sub_selftext post) "") <= 800)%nat ->
       body = str_or (sub_selftext post) "")).
Proof.
  intros r x.
  assert (Hrun : r = (Ok (VList (outcome_list (fst r))), snd r))
    by (vm_compute; reflexivity).
  assert (Hx : In x (outcome_list (fst r)))
    by (vm_compute; left; reflexivity).
  exact (scan_records_come_from_posts Fake.service lower_ascii clock
           Fake.full_env (Some ["SaaS"]) None 25 scan_world _ _ Hrun x Hx).
Defined.

Lemma scan_output_is_rearrangement_witness :
  let r :=
    run (scan Fake.full_env (Some ["webdev"; "SaaS"]) None 25) scan_world in
  let appended :=
    flat_map (event_records lower_ascii clock (list_or None PAIN_KEYWORDS))
      (log (snd r)) in
  Permutation (outcome_list (fst r)) appended /\
  length (outcome_list (fst r)) = length appended /\
  length appended = 3%nat.
Proof.
  intros r appended.
  assert (Hrun : r = (Ok (VList (outcome_list (fst r))), snd r))
    by (vm_compute; reflexivity).
  destruct (scan_output_is_rearrangement Fake.service lower_ascii clock
              Fake.full_env (Some ["webdev"; "SaaS"]) None 25 scan_world
              _ _ Hrun) as [Hperm Hlen].
  split; [exact Hperm|]. split; [exact Hlen|]. vm_compute. reflexivity.
Defined.

Lemma scan_order_is_stable_witness :
  let r :=
    run (scan Fake.full_env (Some ["gone"; "startups"; "webdev"]) None 25)
      scan_world in
  filter (fun x => sort_key x =? 0) (outcome_list (fst r)) =
  filter (fun x => sort_key x =? 0)
    (flat_map (event_records lower_ascii clock (list_or None PAIN_KEYWORDS))
       (log (snd r))) /\
  map (get "error") (filter (fun x => sort_key x =? 0) (outcome_list (fst r)))
    = [ Some (VStr "Failed to scan r/gone: received 404 HTTP response");
        None;
        Some (VStr "Failed to scan r/webdev: received 503 HTTP response") ].
Proof.
  intros r.
  assert (Hrun : r = (Ok (VList (outcome_list (fst r))), snd r))
    by (vm_compute; reflexivity).
  split.
  - exact (scan_order_is_stable Fake.service lower_ascii clock
             Fake.full_env (Some ["gone"; "startups"; "webdev"]) None 25
             scan_world _ _ Hrun 0).
  - vm_compute. reflexivity.
Defined.

Lemma scan_without_matches_lists_errors_witness :
  let r :=
    run (scan Fake.full_env (Some ["gone"; "nowhere"]) None 25) scan_world in
  outcome_list (fst r) = flat_map event_errors (log (snd r)) /\
  map (get "error") (outcome_list (fst r))
    = [ Some (VStr "Failed to scan r/gone: received 404 HTTP response");
        Some (VStr "Failed to scan r/nowhere: received 404 HTTP response") ].
Proof.
  intros r.
  assert (Hrun : r = (Ok (VList (outcome_list (fst r))), snd r))
    by (vm_compute; reflexivity).
  split; [|vm_compute; reflexivity].
  apply (scan_without_matches_lists_errors Fake.service lower_ascii clock
           Fake.full_env (Some ["gone"; "nowhere"]) None 25 scan_world
           _ _ Hrun).
  intros name lim posts e post Hev Hpost. vm_compute in Hev.
  destruct Hev as [Hev | [Hev | []]]; injection Hev as _ _ <- _;
    destruct Hpost.
Defined.

Lemma scan_empty_keyword_matches_all_witness :
  let r :=
    run (scan Fake.full_env (Some ["SaaS"]) (Some [EmptyString]) 25)
      scan_world in
  exists matched,
    In EmptyString matched /\
    In (post_record clock "SaaS" ai_post matched) (outcome_list (fst r)).
Proof.
  intros r.
  assert (Hrun : r = (Ok (VList (outcome_list (fst r))), snd r))
    by (vm_compute; reflexivity).
  assert (Hev : In (ENew "SaaS" 25 ([price_post; ai_post], None))
                  (log (snd r))) by (vm_compute; left; reflexivity).
  exact (scan_empty_keyword_matches_all Fake.service lower_ascii clock
           Fake.full_env (Some ["SaaS"]) (Some [EmptyString]) 25 scan_world
           _ _ Hrun (or_introl eq_refl) "SaaS" 25 [price_post; ai_post] None
           ai_post Hev (or_intror (or_introl eq_refl))).
Defined.

Lemma reply_skips_only_when_comment_seen_witness :
  let r := run (reply Fake.full_env "p5" "Try our tool" true) scan_world in
  exists reddit,
    get_reddit Fake.service Fake.full_env = Ok (Some reddit) /\
    reads_show_own_comment Fake.service reddit "p5" scan_world
      (remote (snd r)).
Proof.
  intros r.
  assert (Hrun : r = (Ok skipped, snd r)) by (vm_compute; reflexivity).
  exact (reply_skips_only_when_comment_seen Fake.service Fake.full_env "p5"
           "Try our tool" true scan_world skipped (snd r) Hrun eq_refl).
Defined.

Lemma reply_submits_once_after_checks_witness :
  let res :=
    Ok {| com_id := "c1"; com_permalink := "/r/SaaS/comments/p6/c1/" |} in
  exists s me,
    log (snd (run (reply Fake.full_env "p6" "Try our tool" false)
                scan_world))
      = [EFetch "p6" (Ok s); EMe (Ok me); EReply "p6" "Try our tool" res] /\
    match me with
    | Some m =>
        Forest.has_comment_by (me_name m)
          (Forest.replace_more_0 (sub_comments s)) = false
    | None => True
    end.
Proof.
  intros res.
  assert (Hin : In (EReply "p6" "Try our tool" res)
                  (log (snd (run (reply Fake.full_env "p6" "Try our tool"
                                    false) scan_world))))
    by (vm_compute; right; right; left; reflexivity).
  exact (proj2 (proj2 (proj2
           (reply_submits_once_after_checks Fake.service Fake.full_env "p6"
              "Try our tool" false scan_world "p6" "Try our tool" res
              Hin)))).
Defined.

Lemma reply_on_unanswered_post_witness :
  exists preview,
    run (reply Fake.full_env "p6" "Try our tool" true) scan_world
      = (Ok (VDict
               [ ("status", VStr "dry_run");
                 ("post_title", VStr (sub_title hidden_answer_post));
                 ("post_url",
                  VStr ("https://reddit.com"
                          ++ sub_permalink hidden_answer_post));
                 ("would_reply", VStr preview) ]),
         mkState scan_world
           [ EFetch "p6" (Ok hidden_answer_post);
             EMe (Ok (Some (Fake.fishbig 40 15))) ] []) /\
    len preview = Nat.min 300 (len "Try our tool") /\
    (exists rest,
        "Try our tool" = (preview ++ rest)%string /\ at_boundary rest) /\
    ((len "Try our tool" <= 300)%nat -> preview = "Try our tool").
Proof.
  assert (Hown : Forest.has_comment_by (me_name (Fake.fishbig 40 15))
                   (Forest.replace_more_0 (sub_comments hidden_answer_post))
                 = false) by (vm_compute; reflexivity).
  exact (proj1
           (reply_on_unanswered_post Fake.service Fake.full_env _ "p6"
              "Try our tool" scan_world scan_world scan_world
              hidden_answer_post (Some (Fake.fishbig 40 15))
              eq_refl eq_refl eq_refl Hown)).
Defined.

Lemma warmup_report_witness :
  exists v,
    run (warmup Fake.full_env) scan_world
      = (Ok v,
         mkState scan_world
           [EMe (Ok (Some (Fake.fishbig 40 15))); EHot "all" 5 ([], None)]
           (map hot_record [])) /\
    get "status" v = Some (VStr "ok") /\
    get "hot_posts_browsed" v = Some (VInt 0) /\
    get "username" v = Some (VStr "fishbig").
Proof.
  destruct (warmup_report Fake.service clock Fake.full_env _ scan_world
              scan_world scan_world (Some (Fake.fishbig 40 15)) []
              eq_refl eq_refl eq_refl)
    as [v [Hv [Hst [Hn [Hme _]]]]].
  exists v. split; [exact Hv|]. split; [exact Hst|]. split; [exact Hn|].
  exact (proj1 (Hme _ eq_refl)).
Defined.

Lemma parse_subs_reads_last_argument_witness :
  parse_subs ["--verbose"] = None /\
  exists names,
    parse_subs ["--subs=webdev"; "--subs=SaaS,entrepreneur"; "--verbose"]
      = Some names /\
    names = split "," "SaaS,entrepreneur" /\
    list_or (Some names) DEFAULT_SUBS = names /\
    join "," names = "SaaS,entrepreneur" /\
    Forall (free_of ",") names.
Proof.
  destruct parse_subs_reads_last_argument as [Hnone Hlast].
  assert (Hno : forall a, In a ["--verbose"] ->
                          startswith "--subs=" a = false).
  { intros a [<-|[]]. reflexivity. }
  split; [exact (Hnone ["--verbose"] Hno)|].
  exact (Hlast ["--subs=webdev"] "SaaS,entrepreneur" ["--verbose"] Hno).
Defined.

Lemma main_exit_status_witness :
  (exists msg,
      run (cli Fake.full_env ["reddit_scanner.py"; "upvote"]) scan_world
        = (Ok (VDict [("error", VStr msg)], 1), mkState scan_world [] [])) /\
  run (main Fake.service_bad_site lower_ascii clock Fake.full_env
         ["reddit_scanner.py"; "status"]) scan_world
    = (Exn "No section: 'nosuchsite'", mkState scan_world [] []) /\
  (exists v s',
      run (cli Fake.full_env ["reddit_scanner.py"; "status"]) scan_world
        = (Ok (v, 0), s')).
Proof.
  split; [|split].
  - exact (proj1 (main_exit_status Fake.service lower_ascii clock
                    Fake.full_env ["reddit_scanner.py"; "upvote"]
                    scan_world) eq_refl).
  - exact (proj1 (proj2 (main_exit_status Fake.service_bad_site lower_ascii
                           clock Fake.full_env
                           ["reddit_scanner.py"; "status"] scan_world))
             eq_refl _ eq_refl).
  - apply (proj2 (proj2 (main_exit_status Fake.service lower_ascii clock
                           Fake.full_env ["reddit_scanner.py"; "status"]
                           scan_world)) eq_refl).
    intros e H. vm_compute in H. discriminate.
Defined.

End FurtherConcreteRuns.

(** ** The status reporter and the scan subcommand *)

Section StatusAndScanCommand.
Context {W : Type}.
Variable svc : Service W.
Variable lower : string -> string.
Variable rounded_age : Z -> Z -> pyval.

Local Abbreviation status := (check_status svc rounded_age).
Local Abbreviation cli := (main svc lower rounded_age).

(** X16.  A configured status check makes one request, the profile lookup,
    and returns an error object exactly when the lookup raised or gave no
    account; otherwise it reports the account's name, its verification
    flag and its age. *)
Theorem status_single_lookup :
  forall environ reddit (w : W),
    get_reddit svc environ = Ok (Some reddit) ->
    exists v,
      run (status environ) w
        = (Ok v,
           mkState (snd (user_me svc reddit w))
             [EMe (fst (user_me svc reddit w))] []) /\
      ((exists msg, v = VDict [("error", VStr msg)]) <->
       forall m, fst (user_me svc reddit w) <> Ok (Some m)) /\
      (forall m,
          fst (user_me svc reddit w) = Ok (Some m) ->
          get "username" v = Some (VStr (me_name m)) /\
          get "is_verified" v = Some (VBool (me_has_verified_email m)) /\
          get "account_age_days" v
            = Some (rounded_age 86400 (me_created_utc m))).
Proof.
  intros environ reddit w Hr. unfold check_status. enter_with Hr. unfold_eff.
  destruct (user_me svc reddit w) as [[[m|]|e] w1];
    cbn [remote log local_list fst snd app];
    (eexists; split; [reflexivity|]); split.
  - split; [intros [msg H]; discriminate|].
    intros H. exfalso. now apply (H m).
  - intros m' [= <-]. repeat split; reflexivity.
  - split; [intros _ m; discriminate | intros _; eexists; reflexivity].
  - intros m; discriminate.
  - split; [intros _ m; discriminate | intros _; eexists; reflexivity].
  - intros m; discriminate.
Qed.

(** X17.  The scan subcommand, when configured, prints a list and exits
    with status 0.  It requests the newest 25 posts of every subreddit of
    the [--subs=] list (of the defaults without one), in order, and
    matches them against the default keywords: the command line cannot
    change the keywords or the limit. *)
Theorem main_scan_requests :
  forall environ reddit prog rest (w : W),
    get_reddit svc environ = Ok (Some reddit) ->
    exists out s' answers,
      run (cli environ (prog :: "scan" :: rest)) w = (Ok (VList out, 0), s') /\
      log s' = map (fun a => ENew (fst a) 25 (snd a)) answers /\
      map fst answers = list_or (parse_subs rest) DEFAULT_SUBS /\
      out = sort_desc
              (flat_map (event_records lower rounded_age PAIN_KEYWORDS)
                 (log s')).
Proof.
  intros environ reddit prog rest w Hr. unfold main.
  cbn [String.eqb Ascii.eqb Bool.eqb andb]. rewrite run_then_print.
  rewrite (scan_run svc lower rounded_age _ reddit _ _ _ _ Hr).
  pose proof (scan_answers_names svc reddit 25
                (list_or (parse_subs rest) DEFAULT_SUBS) w) as Hnames.
  destruct (scan_answers svc reddit 25
              (list_or (parse_subs rest) DEFAULT_SUBS) w) as [answers w'].
  cbn [fst snd log] in *. eexists _, _, answers.
  split; [reflexivity|]. cbn [log].
  split; [reflexivity|]. split; [exact Hnames|].
  f_equal. symmetry.
  apply (records_of_answers lower rounded_age PAIN_KEYWORDS 25 answers).
Qed.

End StatusAndScanCommand.

Section StatusAndScanCommandRuns.
Import Examples.

Lemma status_single_lookup_witness :
  exists v,
    run (status Fake.full_env) scan_world
      = (Ok v, mkState scan_world [EMe (Ok (Some (Fake.fishbig 40 15)))] []) /\
    get "username" v = Some (VStr "fishbig") /\
    get "is_verified" v = Some (VBool true).
Proof.
  destruct (status_single_lookup Fake.service clock Fake.full_env _
              scan_world eq_refl) as [v [Hv [_ Hfields]]].
  exists v. split; [exact Hv|].
  destruct (Hfields (Fake.fishbig 40 15) eq_refl) as [Hname [Hver _]].
  split; [exact Hname | exact Hver].
Defined.

Lemma main_scan_requests_witness :
  exists out s' answers,
    run (cli Fake.full_env ["reddit_scanner.py"; "scan"; "--subs=webdev,SaaS"])
        scan_world = (Ok (VList out, 0), s') /\
    log s' = map (fun a => ENew (fst a) 25 (snd a)) answers /\
    map fst answers
      = list_or (parse_subs ["--subs=webdev,SaaS"]) DEFAULT_SUBS /\
    out = sort_desc
            (flat_map (event_records lower_ascii clock PAIN_KEYWORDS)
               (log s')).
Proof.
  exact (main_scan_requests Fake.service lower_ascii clock Fake.full_env _
           "reddit_scanner.py" ["--subs=webdev,SaaS"] scan_world eq_refl).
Defined.

End StatusAndScanCommandRuns.
